(** * Keyword enrichment pipeline ([main.py]): batching, trends fetch, merge

    A shallow embedding of [main.py]:
    - [batch]                (lines 104-110), the generator that cuts a keyword
      list into chunks with [itertools.islice];
    - [fetch_google_trends]  (lines 113-156), the sequential per-batch retry
      loop around the pytrends client;
    - the merge stage of [main] (lines 214-236), which filters the trend
      records, builds the CPC frame and left-joins both frames;
    - [extract_seed_keywords_from_text] and [expand_keywords_gemini_flash]
      (lines 60-101), the two parsers of the model's bullet lists;
    - [main] (lines 163-251), which chains all of these.

    Conventions.  Python integers are [Z].  Python floats are modelled by exact
    rationals [Q] (rounding of float64 arithmetic is not modelled).  A raised
    exception is an explicit [Raised] outcome.  The pytrends client, the text
    model and the scraper are the environment: functions giving the response
    of every request; building the client (line 114) can itself raise, which
    [fetch_google_trends_call] models.  Console output and the files written are not modelled;
    the observable effects kept in the trace are the provider requests and
    the two [time.sleep] sites. *)

From Stdlib Require Import String Ascii ZArith QArith Bool Lia List.
From Equations Require Import Equations.
Import ListNotations.

Local Open Scope Z_scope.

(** Exceptions that the modelled code can raise. *)
Inductive exn : Type :=
| ValueError
| ZeroDivisionError
| ProviderError.

(** Result of a call that either returns a value or raises. *)
Inductive result (A : Type) : Type :=
| Ok (a : A)
| Raise (e : exn).
Arguments Ok {A} a.
Arguments Raise {A} e.

(** Matching on a value while keeping the equation with the term matched. *)
Definition inspect {A : Type} (a : A) : {b : A | a = b} := exist _ a eq_refl.

(** ** Helper to batch keywords (lines 104-110) *)
Module Batcher.

Section Batch.
Context {A : Type}.

(** [list(islice(it, n))] for [0 <= n]: the items taken and the iterator
    state left behind. *)
Definition islice (it : list A) (n : nat) : list A * list A :=
  (firstn n it, skipn n it).

(** The [while True] loop of the generator: take a slice, stop when it is
    empty, otherwise yield it and go on with the rest of the iterator. *)
Equations? batch_loop (n : nat) (it : list A) : list (list A)
  by wf (length it) lt :=
  batch_loop n it with inspect (fst (islice it n)) := {
    | exist _ nil _ => [];
    | exist _ (cons x xs) E => (x :: xs) :: batch_loop n (snd (islice it n)) }.
Proof.
  unfold islice in *; simpl in *. rewrite length_skipn.
  destruct n as [|n]; [discriminate|].
  destruct it as [|y it]; [discriminate|]. simpl. lia.
Qed.

(** [batch(iterable, n)] consumed to the end.  [islice] refuses a negative
    stop with [ValueError]; the generator raises it at its first [next],
    before any batch is yielded.  (The upper limit [sys.maxsize] on the stop
    is a machine limit and is not modelled.) *)
Definition batch (iterable : list A) (n : Z) : result (list (list A)) :=
  if n <? 0 then Raise ValueError
  else Ok (batch_loop (Z.to_nat n) iterable).
End Batch.

End Batcher.

(** ** Google Trends fetch with retries and backoff (lines 113-156) *)
Module Trends.

(** One element of [trends_data]: the dict [{"keyword": kw, "trends_score": score}]. *)
Record TrendRecord : Type := {
  keyword : string;
  trends_score : Q
}.

(** The frame returned by [pytrends.interest_over_time()]: its column labels
    and its rows (one per date of the index); a row gives the cell under each
    label.  Every column therefore has one cell per row.  Cells are the
    integer interest index. *)
Record DataFrame : Type := {
  columns : list string;
  rows : list (string -> Z)
}.

(** [data.empty]: some axis has length 0. *)
Definition empty (data : DataFrame) : bool :=
  match columns data, rows data with
  | [], _ => true
  | _, [] => true
  | _, _ => false
  end.

(** [kw in data.columns]. *)
Definition has_column (kw : string) (data : DataFrame) : bool :=
  if in_dec string_dec kw (columns data) then true else false.

(** [data.drop(columns=[label])]. *)
Definition drop (label : string) (data : DataFrame) : DataFrame :=
  {| columns := filter (fun c => negb (String.eqb c label)) (columns data);
     rows := rows data |}.

(** Lines 131-132: the [isPartial] marker column is removed when present. *)
Definition drop_isPartial (data : DataFrame) : DataFrame :=
  if has_column "isPartial" data then drop "isPartial" data else data.

(** [data[kw]]: the time series under label [kw]. *)
Definition series (data : DataFrame) (kw : string) : list Z :=
  map (fun row => row kw) (rows data).

Definition sum (xs : list Z) : Z := fold_right Z.add 0 xs.

(** [Series.mean()] of an integer series, as an exact rational. *)
Definition mean (xs : list Z) : Q :=
  (inject_Z (sum xs) / inject_Z (Z.of_nat (length xs)))%Q.

(** What one call [build_payload] + [interest_over_time] does. *)
Inductive Response : Type :=
| ProviderRaises
| Returns (data : DataFrame).

(** Observable effects of a run, in the order they happen.  [Request i attempt
    kw_list geo] is the provider call made for batch number [i] (from 1) while
    the variable [attempt] has the given value (from 0).  [SleepDelay] is the
    [time.sleep(delay)] of line 142, [SleepBackoff] the [time.sleep(wait)] of
    line 151. *)
Inductive Event : Type :=
| Request (i attempt : Z) (kw_list : list string) (geo : string)
| SleepDelay (seconds : Z)
| SleepBackoff (seconds : Z).

(** The mutable state of one call of [fetch_google_trends]. *)
Record Run : Type := {
  trends_data : list TrendRecord;
  trace : list Event
}.

Definition log (e : Event) (st : Run) : Run :=
  {| trends_data := trends_data st; trace := trace st ++ [e] |}.

Definition append (r : TrendRecord) (st : Run) : Run :=
  {| trends_data := trends_data st ++ [r]; trace := trace st |}.

(** How a block of statements ends. *)
Inductive outcome : Type :=
| Normal
| Raised (e : exn).

(** [time.sleep(seconds)]: a negative length raises [ValueError]. *)
Definition sleep (site : Z -> Event) (seconds : Z) (st : Run) : outcome * Run :=
  if seconds <? 0 then (Raised ValueError, st)
  else (Normal, log (site seconds) st).

(** [enumerate(batches, start)]. *)
Fixpoint enumerate {A : Type} (batches : list A) (start : Z) : list (Z * A) :=
  match batches with
  | [] => []
  | b :: batches => (start, b) :: enumerate batches (start + 1)
  end.

(** Line 117: [(len(keywords) + batch_size - 1) // batch_size]; Python's [//]
    is floor division and raises on a zero divisor. *)
Definition total_batches (keywords : list string) (batch_size : Z) : result Z :=
  if batch_size =? 0 then Raise ZeroDivisionError
  else Ok ((Z.of_nat (length keywords) + batch_size - 1) / batch_size).

Section Fetch.
(** The pytrends client.  Each request of a run is identified by the batch
    number and the value of [attempt] when it is made, so a function of
    these describes any behaviour of the provider during the run. *)
Variable pytrends : Z -> Z -> list string -> string -> Response.
Variables (geo : string) (retries backoff delay : Z).

(** Lines 134-139: the loop over the keywords of the batch. *)
Definition collect (data : DataFrame) (kw_batch : list string) (st : Run) : Run :=
  fold_left
    (fun st kw =>
       if has_column kw data
       then append {| keyword := kw; trends_score := mean (series data kw) |} st
       else st)
    kw_batch st.

(** Lines 124-143: the body of the [try]. *)
Definition try_body (i attempt : Z) (kw_batch : list string) (st : Run)
  : outcome * Run :=
  let st := log (Request i attempt kw_batch geo) st in
  match pytrends i attempt kw_batch geo with
  | ProviderRaises => (Raised ProviderError, st)
  | Returns data =>
      if empty data then (Raised ValueError, st)
      else
        let data := drop_isPartial data in
        let st := collect data kw_batch st in
        sleep SleepDelay delay st
  end.

(** Lines 122-154: the [while attempt < retries] loop of one batch.  An
    exception raised by the [time.sleep] of the handler is not caught. *)
Equations? attempt_loop (i : Z) (kw_batch : list string) (attempt : Z) (st : Run)
  : outcome * Run by wf (Z.to_nat (retries - attempt)) lt :=
  attempt_loop i kw_batch attempt st with Z_lt_dec attempt retries := {
    | right _ => (Normal, st);
    | left _ =>
        match try_body i attempt kw_batch st with
        | (Normal, st) => (Normal, st)
        | (Raised _, st) =>
            let attempt := attempt + 1 in
            if attempt <? retries then
              let wait := backoff * attempt in
              match sleep SleepBackoff wait st with
              | (Normal, st) => attempt_loop i kw_batch attempt st
              | (Raised e, st) => (Raised e, st)
              end
            else (Normal, st)
        end }.
Proof. lia. Qed.

(** Lines 120-154: the [for] loop over the numbered batches. *)
Fixpoint for_batches (numbered : list (Z * list string)) (st : Run)
  : outcome * Run :=
  match numbered with
  | [] => (Normal, st)
  | (i, kw_batch) :: numbered =>
      match attempt_loop i kw_batch 0 st with
      | (Normal, st) => for_batches numbered st
      | (Raised e, st) => (Raised e, st)
      end
  end.

Definition start : Run := {| trends_data := []; trace := [] |}.

(** [fetch_google_trends] from line 115 on, for the client [pytrends] that
    line 114 built: the value returned (or the exception) and the trace of
    the run.  The whole call, with the construction of the client and its
    exception, is [fetch_google_trends_call] below. *)
Definition fetch_google_trends (keywords : list string) (batch_size : Z)
  : result (list TrendRecord) * list Event :=
  match total_batches keywords batch_size with
  | Raise e => (Raise e, trace start)
  | Ok _ =>
      match Batcher.batch keywords batch_size with
      | Raise e => (Raise e, trace start)
      | Ok batches =>
          match for_batches (enumerate batches 1) start with
          | (Normal, st) => (Ok (trends_data st), trace st)
          | (Raised e, st) => (Raise e, trace st)
          end
      end
  end.
End Fetch.

(** A call of [fetch_google_trends] from its first statement.  Line 114
    builds the client: [TrendReq(...)] gets a cookie over HTTP and can
    raise, and no [try] surrounds it, so its exception leaves the function
    before line 117 and before any request.  [TrendReq] is what the
    construction gives: the exception, or the client that answers the
    requests of the run. *)
Definition fetch_google_trends_call
    (TrendReq : result (Z -> Z -> list string -> string -> Response))
    (geo : string) (retries backoff delay : Z)
    (keywords : list string) (batch_size : Z)
  : result (list TrendRecord) * list Event :=
  match TrendReq with
  | Raise e => (Raise e, [])
  | Ok pytrends =>
      fetch_google_trends pytrends geo retries backoff delay keywords batch_size
  end.

(** *** The run of one batch, described from the provider's responses *)
Section Outcome.
Variable pytrends : Z -> Z -> list string -> string -> Response.
Variables (geo : string) (retries backoff delay : Z).

(** The responses that send an attempt to the [except] branch: the call
    raised, or the frame is empty (line 128). *)
Definition failed (r : Response) : bool :=
  match r with
  | ProviderRaises => true
  | Returns data => empty data
  end.

(** The records that lines 134-139 add for a frame: one per keyword of the
    batch that is a column of the frame, in batch order. *)
Definition records_of (data : DataFrame) (kw_batch : list string)
  : list TrendRecord :=
  map (fun kw => {| keyword := kw; trends_score := mean (series data kw) |})
      (filter (fun kw => has_column kw data) kw_batch).

(** The first of the [fuel] attempts from [attempt] on whose response is
    not [failed], with the frame it returned. *)
Fixpoint first_success_from (i : Z) (kw_batch : list string) (attempt : Z)
    (fuel : nat) : option (Z * DataFrame) :=
  match fuel with
  | O => None
  | S fuel =>
      match pytrends i attempt kw_batch geo with
      | ProviderRaises => first_success_from i kw_batch (attempt + 1) fuel
      | Returns data =>
          if empty data
          then first_success_from i kw_batch (attempt + 1) fuel
          else Some (attempt, data)
      end
  end.

Definition first_success (i : Z) (kw_batch : list string)
  : option (Z * DataFrame) :=
  first_success_from i kw_batch 0 (Z.to_nat retries).

(** The integers [from], [from + 1], ..., [upto - 1]. *)
Definition attempts (from upto : Z) : list Z :=
  map (fun n => from + Z.of_nat n) (seq 0 (Z.to_nat (upto - from))).

(** The events of the failed attempts [from .. upto - 1], each followed by
    its backoff sleep. *)
Definition retry_trace (i : Z) (kw_batch : list string) (from upto : Z)
  : list Event :=
  flat_map
    (fun attempt =>
       [Request i attempt kw_batch geo; SleepBackoff (backoff * (attempt + 1))])
    (attempts from upto).

(** The events of a batch entered with the given value of [attempt]. *)
Definition trace_from (i : Z) (kw_batch : list string) (attempt : Z)
    (found : option (Z * DataFrame)) : list Event :=
  match found with
  | Some (k, _) =>
      retry_trace i kw_batch attempt k
      ++ [Request i k kw_batch geo; SleepDelay delay]
  | None =>
      if attempt <? retries
      then retry_trace i kw_batch attempt (retries - 1)
           ++ [Request i (retries - 1) kw_batch geo]
      else []
  end.

Definition records_from (kw_batch : list string)
    (found : option (Z * DataFrame)) : list TrendRecord :=
  match found with
  | Some (_, data) => records_of (drop_isPartial data) kw_batch
  | None => []
  end.

Definition batch_records (numbered : Z * list string) : list TrendRecord :=
  let (i, kw_batch) := numbered in
  records_from kw_batch (first_success i kw_batch).

Definition batch_trace (numbered : Z * list string) : list Event :=
  let (i, kw_batch) := numbered in
  trace_from i kw_batch 0 (first_success i kw_batch).
End Outcome.

End Trends.

(** ** Dummy CPC stub and the merge stage of [main] (lines 158-160, 214-236) *)
Module Merger.

(** A row of the pandas frames of [main].  A cell is [None] when the frame
    has no such column or holds NaN there. *)
Record Row : Type := {
  keyword : string;
  trends_score : option Q;
  cpc_usd : option Q
}.

(** A frame of [main], as the list of its rows; these frames always have the
    [keyword] column, so [df.empty] means that there is no row. *)
Definition DataFrame : Type := list Row.

Definition empty (df : DataFrame) : bool :=
  match df with
  | [] => true
  | _ :: _ => false
  end.

(** [str.isspace] on one-byte characters: tab to carriage return, the four
    separators and the space. *)
Definition isspace (c : ascii) : bool :=
  let n := nat_of_ascii c in
  ((9 <=? n) && (n <=? 13) || (28 <=? n) && (n <=? 32))%nat.

(** [keyword.split()]: the maximal runs of non-space characters.  [word] is
    the run being read. *)
Fixpoint split_from (word : string) (s : string) : list string :=
  match s with
  | EmptyString =>
      match word with
      | EmptyString => []
      | _ => [word]
      end
  | String c s =>
      if isspace c then
        match word with
        | EmptyString => split_from EmptyString s
        | _ => word :: split_from EmptyString s
        end
      else split_from (word ++ String c EmptyString) s
  end.

Definition split (s : string) : list string := split_from EmptyString s.

(** [round(0.5 + 0.1 * len(keyword.split()), 2)]: the float returned is the
    one nearest to the decimal [0.5 + 0.1 * n], and the model keeps that
    decimal (it has one place, so rounding to two leaves it).  Only the
    value of one cost is meant: sums and differences of costs are float64
    operations in the program and are not those of the rationals. *)
Definition get_cpc_from_ubersuggest (keyword : string) : Q :=
  ((5 # 10) + (1 # 10) * inject_Z (Z.of_nat (length (split keyword))))%Q.

(** [pd.DataFrame({"keyword": expanded_keywords})]. *)
Definition frame_of_keywords (expanded_keywords : list string) : DataFrame :=
  map (fun kw => {| keyword := kw; trends_score := None; cpc_usd := None |})
      expanded_keywords.

(** [pd.DataFrame(trends_data)]. *)
Definition frame_of_trends (trends_data : list Trends.TrendRecord) : DataFrame :=
  map (fun r => {| keyword := Trends.keyword r;
                   trends_score := Some (Trends.trends_score r);
                   cpc_usd := None |})
      trends_data.

(** [score >= min_score]; a comparison with a missing value is false. *)
Definition score_ge (min_score : Q) (row : Row) : bool :=
  match trends_score row with
  | Some score => Qle_bool min_score score
  | None => false
  end.

(** Lines 227-231: one CPC row per row of [trends_df]. *)
Definition frame_of_cpc (trends_df : DataFrame) : DataFrame :=
  map (fun row => {| keyword := keyword row;
                     trends_score := None;
                     cpc_usd := Some (get_cpc_from_ubersuggest (keyword row)) |})
      trends_df.

(** The rows of [right] whose key equals the key of [row]. *)
Definition matches (row : Row) (right : DataFrame) : DataFrame :=
  filter (fun r => String.eqb (keyword r) (keyword row)) right.

(** The row that the merge makes of a row of [left] and a cost. *)
Definition with_cost (row : Row) (cost : option Q) : Row :=
  {| keyword := keyword row; trends_score := trends_score row; cpc_usd := cost |}.

(** [pd.merge(left, right, on="keyword", how="left")] where [left] brings the
    score column and [right] the cost column: the rows of [left] in order,
    each once per matching row of [right], or once with a missing cost when
    nothing matches. *)
Definition merge_left (left right : DataFrame) : DataFrame :=
  flat_map
    (fun row =>
       match matches row right with
       | [] => [with_cost row None]
       | ms => map (fun r => with_cost row (cpc_usd r)) ms
       end)
    left.

(** Lines 214-220. *)
Definition trends_frame (expanded_keywords : list string)
    (trends_data : list Trends.TrendRecord) (min_score : Q) : DataFrame :=
  match trends_data with
  | [] => frame_of_keywords expanded_keywords
  | _ :: _ => filter (score_ge min_score) (frame_of_trends trends_data)
  end.

(** Lines 222-231. *)
Definition cpc_frame (trends_df : DataFrame) : DataFrame :=
  if empty trends_df then [] else frame_of_cpc trends_df.

(** Lines 214-236: [final_df] from the fetched [trends_data]. *)
Definition final_frame (expanded_keywords : list string)
    (trends_data : list Trends.TrendRecord) (min_score : Q) : DataFrame :=
  let trends_df := trends_frame expanded_keywords trends_data min_score in
  let cpc_df := cpc_frame trends_df in
  if negb (empty trends_df) && negb (empty cpc_df)
  then merge_left trends_df cpc_df
  else trends_df.

End Merger.

(** ** Sample providers and inputs *)
Module Scenario.
Import Trends.
Local Open Scope string_scope.

(** A frame over two dates with the given series columns and the marker
    column. *)
Definition frame (kw_list : list string) : DataFrame :=
  {| columns := kw_list ++ ["isPartial"];
     rows := [fun _ => 40; fun _ => 60] |}.

(** A provider that answers every request in full. *)
Definition reliable (i attempt : Z) (kw_list : list string) (geo : string)
  : Response :=
  Returns (frame kw_list).

(** A provider that raises on every request of batch 2, answers the first
    request of batch 1 with an empty frame, and answers in full otherwise. *)
Definition flaky (i attempt : Z) (kw_list : list string) (geo : string)
  : Response :=
  if Z.eqb i 2 then ProviderRaises
  else if Z.eqb i 1 && Z.eqb attempt 0 then Returns {| columns := []; rows := [] |}
  else Returns (frame kw_list).

(** A provider that only knows about the first keyword of a request. *)
Definition partial (i attempt : Z) (kw_list : list string) (geo : string)
  : Response :=
  Returns (frame (firstn 1 kw_list)).

Definition keywords : list string := ["p"; "q"; "r"; "s"; "t"; "u"].

End Scenario.

(** ** Measures of a trace *)
Module Effects.
Import Trends.

Definition is_request (e : Event) : bool :=
  match e with
  | Request _ _ _ _ => true
  | _ => false
  end.

(** The provider requests of a trace, in order. *)
Definition requests (tr : list Event) : list Event := filter is_request tr.

(** The length of one [time.sleep]; a request takes none. *)
Definition seconds (e : Event) : Z :=
  match e with
  | Request _ _ _ _ => 0
  | SleepDelay s => s
  | SleepBackoff s => s
  end.

(** The total time spent in [time.sleep] during a trace. *)
Definition seconds_slept (tr : list Event) : Z :=
  fold_right (fun e total => seconds e + total) 0 tr.

(** [s] is [l] with some of its elements left out, the order kept. *)
Inductive subsequence {A : Type} : list A -> list A -> Prop :=
| subsequence_nil : subsequence [] []
| subsequence_keep (x : A) (s l : list A) :
    subsequence s l -> subsequence (x :: s) (x :: l)
| subsequence_skip (x : A) (s l : list A) :
    subsequence s l -> subsequence s (x :: l).

Section Provenance.
Variable pytrends : Z -> Z -> list string -> string -> Response.
Variable geo : string.

(** [r] is one of the records that lines 134-139 make of a frame, not empty,
    that the provider returned for batch [i]. *)
Definition fetched_from (i : Z) (kw_batch : list string) (r : TrendRecord) : Prop :=
  exists attempt data,
    pytrends i attempt kw_batch geo = Returns data /\
    empty data = false /\
    In r (records_of (drop_isPartial data) kw_batch).

(** The records of the response to one attempt, none when it failed. *)
Definition records_at (i : Z) (kw_batch : list string) (attempt : Z)
  : list TrendRecord :=
  match pytrends i attempt kw_batch geo with
  | ProviderRaises => []
  | Returns data =>
      if empty data then [] else records_of (drop_isPartial data) kw_batch
  end.
End Provenance.

End Effects.

(** ** Measures of strings and frames *)
Module Measures.

(** Every character of [s] satisfies [p]. *)
Fixpoint all_chars (p : ascii -> bool) (s : string) : bool :=
  match s with
  | EmptyString => true
  | String c s => p c && all_chars p s
  end.

(** [round(0.5 + 0.1 * n, 2)], the cost that the CPC stub gives to a
    keyword of [n] words, as the decimal that the float is nearest to. *)
Definition words_cost (n : nat) : Q :=
  ((5 # 10) + (1 # 10) * inject_Z (Z.of_nat n))%Q.

(** The number of rows of [df] whose keyword is [kw]. *)
Definition occurrences (kw : string) (df : Merger.DataFrame) : nat :=
  length (filter (fun row => String.eqb (Merger.keyword row) kw) df).

End Measures.

(** ** Seed keywords and their expansion (lines 59-101) *)
Module Keywords.
Import Merger.

Local Open Scope string_scope.

(** Strings are sequences of one-byte characters; the white space and the
    line boundaries that Python knows outside ASCII are not modelled. *)

(** The character [\n]. *)
Definition LF : ascii := ascii_of_nat 10.

(** The character [\r]. *)
Definition CR : ascii := ascii_of_nat 13.

Definition newline : string := String LF EmptyString.

(** The line boundaries of [str.splitlines]: line feed to carriage return
    and the file, group and record separators. *)
Definition is_linebreak (c : ascii) : bool :=
  let n := nat_of_ascii c in
  ((10 <=? n) && (n <=? 13) || (28 <=? n) && (n <=? 30))%nat.

(** [s.splitlines()]: [line] is the line being read.  [\r\n] is one
    boundary; no empty line is added after a final boundary. *)
Fixpoint splitlines_from (line : string) (s : string) : list string :=
  match s with
  | EmptyString =>
      match line with
      | EmptyString => []
      | _ => [line]
      end
  | String c s =>
      if Ascii.eqb c CR then
        match s with
        | String c' s' =>
            if Ascii.eqb c' LF
            then line :: splitlines_from EmptyString s'
            else line :: splitlines_from EmptyString s
        | EmptyString => [line]
        end
      else if is_linebreak c then line :: splitlines_from EmptyString s
      else splitlines_from (line ++ String c EmptyString) s
  end.

Definition splitlines (s : string) : list string :=
  splitlines_from EmptyString s.

(** [s.lstrip()]. *)
Fixpoint lstrip (s : string) : string :=
  match s with
  | EmptyString => EmptyString
  | String c s' => if isspace c then lstrip s' else s
  end.

(** [s.rstrip()]. *)
Fixpoint rstrip (s : string) : string :=
  match s with
  | EmptyString => EmptyString
  | String c s' =>
      match rstrip s' with
      | EmptyString => if isspace c then EmptyString else String c EmptyString
      | t => String c t
      end
  end.

(** [s.strip()]. *)
Definition strip (s : string) : string := lstrip (rstrip s).

(** A keyword in the form the two parsers store it: not empty, no white
    space at either end, on one line. *)
Definition clean (kw : string) : Prop :=
  kw <> EmptyString /\
  lstrip kw = kw /\
  rstrip kw = kw /\
  Measures.all_chars (fun c => negb (is_linebreak c)) kw = true.

(** [s.startswith(prefix)]. *)
Definition startswith (s prefix : string) : bool := String.prefix prefix s.

(** [s[n:]]. *)
Fixpoint slice_from (n : nat) (s : string) : string :=
  match n, s with
  | O, _ => s
  | S n, String _ s' => slice_from n s'
  | S _, EmptyString => EmptyString
  end.

(** The truth value of a string: it is not empty. *)
Definition truthy (s : string) : bool :=
  match s with
  | EmptyString => false
  | String _ _ => true
  end.

(** [kw in keywords]. *)
Definition member (kw : string) (keywords : list string) : bool :=
  if in_dec string_dec kw keywords then true else false.

(** Lines 73 and 95: the line is a bullet. *)
Definition is_bullet (line : string) : bool :=
  startswith line "- " || startswith line "* ".

(** ["\n".join(f"- {kw}" for kw in seed_keywords)], line 85. *)
Definition bullet_list (keywords : list string) : string :=
  String.concat newline (map (fun kw => "- " ++ kw) keywords).

Section Gemini.
(** [generate_with_gemini(client, prompt)]: the text of the response, empty
    when the request failed. *)
Variable generate_with_gemini : string -> string.

(** [list(set(keywords))]: Python leaves the order of a set open. *)
Variable list_set : list string -> list string.

(** Lines 71-78: the loop over the lines of the response. *)
Fixpoint extract_loop (max_keywords : Z) (lines : list string)
    (keywords : list string) : list string :=
  match lines with
  | [] => keywords
  | line :: lines =>
      let line := strip line in
      if is_bullet line then
        let kw := strip (slice_from 2 line) in
        let keywords :=
          if truthy kw && negb (member kw keywords)
          then (keywords ++ [kw])%list
          else keywords in
        if Z.of_nat (List.length keywords) >=? max_keywords then keywords
        else extract_loop max_keywords lines keywords
      else extract_loop max_keywords lines keywords
  end.

(** Lines 61-65. *)
Definition extract_prompt (text : string) : string :=
  "Extract the top seed keywords for SEM campaigns from the following website text:"
  ++ newline ++ text ++ newline ++ newline
  ++ "List them as a bulleted list.".

(** [extract_seed_keywords_from_text] (lines 60-79). *)
Definition extract_seed_keywords_from_text (text : string) (max_keywords : Z)
  : list string :=
  let response_text := generate_with_gemini (extract_prompt text) in
  if negb (truthy response_text) then []
  else extract_loop max_keywords (splitlines response_text) [].

(** Lines 93-100: the loop over the lines of the response. *)
Fixpoint expand_loop (limit : Z) (seed_keywords : list string)
    (lines : list string) (expanded_keywords : list string) : list string :=
  match lines with
  | [] => expanded_keywords
  | line :: lines =>
      let line := strip line in
      if is_bullet line then
        let kw := strip (slice_from 2 line) in
        let expanded_keywords :=
          if truthy kw && negb (member kw expanded_keywords)
             && negb (member kw seed_keywords)
          then (expanded_keywords ++ [kw])%list
          else expanded_keywords in
        if Z.of_nat (List.length expanded_keywords) >=? limit
        then expanded_keywords
        else expand_loop limit seed_keywords lines expanded_keywords
      else expand_loop limit seed_keywords lines expanded_keywords
  end.

(** Lines 83-87. *)
Definition expand_prompt (seed_keywords : list string) : string :=
  "Given the following seed keywords, generate a list of related keyword phrases for SEM campaigns."
  ++ newline ++ "Seed keywords:" ++ newline
  ++ bullet_list seed_keywords ++ newline
  ++ "Return only the expanded keywords as a bulleted list.".

(** [expand_keywords_gemini_flash] (lines 82-101). *)
Definition expand_keywords_gemini_flash (seed_keywords : list string)
    (max_expansions : Z) : list string :=
  let response_text := generate_with_gemini (expand_prompt seed_keywords) in
  if negb (truthy response_text) then seed_keywords
  else
    let limit := max_expansions * Z.of_nat (List.length seed_keywords) in
    let expanded_keywords :=
      expand_loop limit seed_keywords (splitlines response_text) [] in
    list_set (seed_keywords ++ expanded_keywords)%list.
End Gemini.

End Keywords.

(** ** The pipeline of [main] (lines 163-251) *)
Module Pipeline.
Import Keywords.

Local Open Scope string_scope.

(** The keys of [config.yaml] that [main] reads ([output_dir] apart); a key
    that the file does not set is [None]. *)
Record Config : Type := {
  gemini_api_key : option string;
  brand_website : option string;
  competitor_website : option string;
  geo : option string;
  retries : option Z;
  backoff : option Z;
  batch_size : option Z;
  delay : option Z;
  min_trends_score : option Q
}.

(** [config.get(key, default)]. *)
Definition get {A : Type} (value : option A) (default : A) : A :=
  match value with
  | Some v => v
  | None => default
  end.

(** [not config.get(key)] for a text key: not set, or empty. *)
Definition absent (value : option string) : bool :=
  match value with
  | Some s => negb (truthy s)
  | None => true
  end.

(** The configuration passes both checks of lines 170-175. *)
Definition configured (config : Config) : Prop :=
  absent (gemini_api_key config) = false /\
  absent (brand_website config) = false /\
  absent (competitor_website config) = false.

(** How [main] ends: it returns early on a configuration error, it dies of
    an exception, or it saves the final frame. *)
Inductive Outcome : Type :=
| ConfigError
| Crashed (e : exn)
| Saved (final_df : Merger.DataFrame).

(** Lines 192-198. *)
Definition dummy_seed_keywords : list string :=
  ["muscle blaze protein";
   "vegan protein powder";
   "whey protein";
   "mass gainer";
   "creatine supplement"].

Section Main.
(** [scrape_website_text(url)]: the text scraped, empty on any failure. *)
Variable scrape_website_text : string -> string.
Variable generate_with_gemini : string -> string.
Variable list_set : list string -> list string.

(** What [TrendReq(...)] gives at line 114 of [fetch_google_trends]: an
    exception, or the client. *)
Variable TrendReq : result (Z -> Z -> list string -> string -> Trends.Response).

(** Lines 180-184: both texts, cut to 1000 characters. *)
Definition combined_text (brand_url competitor_url : string) : string :=
  substring 0 1000
    (scrape_website_text brand_url ++ newline
     ++ scrape_website_text competitor_url).

(** Lines 187-198: the seeds, the dummy list when none was extracted. *)
Definition seed_keywords (brand_url competitor_url : string) : list string :=
  match
    extract_seed_keywords_from_text generate_with_gemini
      (combined_text brand_url competitor_url) 10
  with
  | [] => dummy_seed_keywords
  | keywords => keywords
  end.

(** Line 201. *)
Definition expanded_keywords (brand_url competitor_url : string) : list string :=
  expand_keywords_gemini_flash generate_with_gemini list_set
    (seed_keywords brand_url competitor_url) 5.

(** Lines 205-212: the call of the fetch with the configured parameters. *)
Definition fetch (config : Config) (keywords : list string)
  : result (list Trends.TrendRecord) * list Trends.Event :=
  Trends.fetch_google_trends_call TrendReq
    (get (geo config) "IN")
    (get (retries config) 3)
    (get (backoff config) 5)
    (get (delay config) 15)
    keywords
    (get (batch_size config) 5).

(** [main]: how it ends and the trace of the fetch. *)
Definition main (config : Config) : Outcome * list Trends.Event :=
  if absent (gemini_api_key config) then (ConfigError, [])
  else if absent (brand_website config) || absent (competitor_website config)
  then (ConfigError, [])
  else
    let brand_url := get (brand_website config) "" in
    let competitor_url := get (competitor_website config) "" in
    let keywords := expanded_keywords brand_url competitor_url in
    match fetch config keywords with
    | (Raise e, tr) => (Crashed e, tr)
    | (Ok trends_data, tr) =>
        (Saved (Merger.final_frame keywords trends_data
                  (get (min_trends_score config) 0%Q)),
         tr)
    end.
End Main.

End Pipeline.

(** ** A sample run of the pipeline *)
Module Sample.
Import Keywords Pipeline.
Local Open Scope string_scope.

Definition scrape (url : string) : string := "Protein supplements".

(** A model that answers every prompt with the same two bullets. *)
Definition generate (prompt : string) : string :=
  bullet_list ["whey protein"; "mass gainer"].

(** A configuration that sets the key and both URLs and leaves the rest to
    the defaults. *)
Definition config : Config :=
  {| gemini_api_key := Some "key";
     brand_website := Some "https://brand.example";
     competitor_website := Some "https://rival.example";
     geo := None;
     retries := None;
     backoff := None;
     batch_size := None;
     delay := None;
     min_trends_score := None |}.

End Sample.


(** * Properties of [batch] *)
Module BatcherFacts.
Import Batcher.

Section Loop.
Context {A : Type}.
Implicit Types (it : list A) (n : nat).

Lemma batch_loop_unfold n it :
  batch_loop n it =
  match firstn n it with
  | [] => []
  | b => b :: batch_loop n (skipn n it)
  end.
Proof.
  funelim (batch_loop n it).
  - simpl in e. rewrite e. reflexivity.
  - simpl in E. rewrite E. reflexivity.
Qed.

Lemma batch_loop_nil n : batch_loop n (@nil A) = [].
Proof. rewrite batch_loop_unfold, firstn_nil. reflexivity. Qed.

Lemma batch_loop_zero it : batch_loop 0 it = [].
Proof. rewrite batch_loop_unfold. reflexivity. Qed.

Lemma batch_loop_cons n x it :
  batch_loop (S n) (x :: it) =
  firstn (S n) (x :: it) :: batch_loop (S n) (skipn (S n) (x :: it)).
Proof. rewrite batch_loop_unfold at 1. reflexivity. Qed.

(** Induction following the loop: the iterator is empty, or a slice is
    yielded and the loop goes on with what is left. *)
Lemma batch_loop_ind (n : nat) (P : list A -> list (list A) -> Prop) :
  P [] [] ->
  (forall x it,
      P (skipn (S n) (x :: it)) (batch_loop (S n) (skipn (S n) (x :: it))) ->
      P (x :: it)
        (firstn (S n) (x :: it) :: batch_loop (S n) (skipn (S n) (x :: it)))) ->
  forall it, P it (batch_loop (S n) it).
Proof.
  intros Hnil Hcons it.
  remember (length it) as m eqn:Hm.
  revert it Hm.
  induction m as [m IH] using lt_wf_ind; intros it Hm.
  destruct it as [|x it].
  - rewrite batch_loop_nil. exact Hnil.
  - rewrite batch_loop_cons. apply Hcons.
    apply (IH (length (skipn (S n) (x :: it)))); [|reflexivity].
    subst m. rewrite length_skipn. simpl. lia.
Qed.

Lemma batch_loop_concat n it : concat (batch_loop (S n) it) = it.
Proof.
  apply (batch_loop_ind n (fun it bs => concat bs = it)); [reflexivity|].
  intros x l IH. cbn [concat]. rewrite IH. apply firstn_skipn.
Qed.

Lemma batch_loop_empty_iff n it : batch_loop (S n) it = [] <-> it = [].
Proof.
  split; intros H.
  - destruct it; [reflexivity|]. rewrite batch_loop_cons in H. discriminate.
  - subst. apply batch_loop_nil.
Qed.

(** Every batch is non-empty and no longer than the size. *)
Lemma batch_loop_bounds n it :
  Forall (fun b => (1 <= length b <= S n)%nat) (batch_loop (S n) it).
Proof.
  apply (batch_loop_ind n (fun _ bs => Forall (fun b => (1 <= length b <= S n)%nat) bs)).
  - constructor.
  - intros x l IH. constructor; [|exact IH].
    pose proof (length_firstn (S n) (x :: l)) as Hf. simpl in *. lia.
Qed.

(** A batch that is followed by another one is full. *)
Lemma batch_loop_full n it i b :
  nth_error (batch_loop (S n) it) i = Some b ->
  (S i < length (batch_loop (S n) it))%nat ->
  length b = S n.
Proof.
  revert i.
  apply (batch_loop_ind n (fun _ bs => forall i,
    nth_error bs i = Some b -> (S i < length bs)%nat -> length b = S n)).
  - intros i H. destruct i; discriminate.
  - intros x l IH [|i] Hnth Hlen.
    + injection Hnth as Hb. rewrite <- Hb. clear Hb IH.
      destruct (skipn (S n) (x :: l)) as [|y r] eqn:Hs.
      * rewrite batch_loop_nil in Hlen. simpl in Hlen. lia.
      * assert (Hl : length (skipn (S n) (x :: l)) = S (length r))
          by (rewrite Hs; reflexivity).
        rewrite length_skipn in Hl.
        change (x :: firstn n l) with (firstn (S n) (x :: l)).
        rewrite length_firstn. lia.
    + cbn [nth_error] in Hnth. cbn [length] in Hlen.
      apply (IH i Hnth). lia.
Qed.

(** The number of batches [k] is the ceiling of [length it / size]:
    [(k - 1) * size < length it <= k * size]. *)
Lemma batch_loop_count n it :
  let k := length (batch_loop (S n) it) in
  (length it <= k * S n)%nat /\ (k * S n < length it + S n)%nat.
Proof.
  apply (batch_loop_ind n (fun it bs =>
    (length it <= length bs * S n)%nat /\
    (length bs * S n < length it + S n)%nat)).
  - simpl. lia.
  - intros x l [IH1 IH2].
    pose proof (length_firstn (S n) (x :: l)) as Hf.
    pose proof (length_skipn (S n) (x :: l)) as Hs.
    pose proof (batch_loop_empty_iff n (skipn (S n) (x :: l))) as He.
    destruct (batch_loop (S n) (skipn (S n) (x :: l))) as [|b bs] eqn:Hb.
    + assert (Hnil : skipn (S n) (x :: l) = []) by (apply He; reflexivity).
      rewrite Hnil in Hs. simpl in *. lia.
    + assert (Hne : length (skipn (S n) (x :: l)) <> 0%nat).
      { intros H0. apply length_zero_iff_nil in H0.
        apply He in H0. discriminate. }
      cbn [length] in *. lia.
Qed.
End Loop.

Local Open Scope string_scope.

Lemma batch_of_valid_size {A : Type} (keywords : list A) (size : Z) :
  1 <= size ->
  batch keywords size = Ok (batch_loop (S (Z.to_nat (size - 1))) keywords).
Proof.
  intros Hs. unfold batch.
  destruct (Z.ltb_spec size 0) as [Hn|_]; [lia|].
  replace (Z.to_nat size) with (S (Z.to_nat (size - 1))) by lia.
  reflexivity.
Qed.

Lemma batch_split_concat {A : Type} (keywords : list A) (size : Z)
    (batches : list (list A)) :
  1 <= size -> batch keywords size = Ok batches -> concat batches = keywords.
Proof.
  intros Hs Hb. rewrite (batch_of_valid_size keywords size Hs) in Hb.
  injection Hb as <-. apply batch_loop_concat.
Qed.

(** C4.  For a size of at least 1, [batch] yields batches whose number is
    the [total_batches] of line 117, which is the ceiling of
    [len(keywords) / size]; their concatenation is the input list, in order;
    every batch has between 1 and [size] keywords, and every batch but the
    last has exactly [size]; the empty list yields no batch and no error. *)
Theorem batch_split_exact (keywords : list string) (size : Z) :
  1 <= size ->
  exists batches,
    batch keywords size = Ok batches /\
    Trends.total_batches keywords size = Ok (Z.of_nat (length batches)) /\
    (Z.of_nat (length batches) - 1) * size < Z.of_nat (length keywords)
      <= Z.of_nat (length batches) * size /\
    concat batches = keywords /\
    (forall i b, nth_error batches i = Some b ->
       1 <= Z.of_nat (length b) <= size /\
       ((S i < length batches)%nat -> Z.of_nat (length b) = size)) /\
    batch (@nil string) size = Ok [].
Proof.
  intros Hs.
  pose proof (batch_of_valid_size keywords size Hs) as Hb.
  set (n := Z.to_nat (size - 1)) in *.
  assert (Hn : size = Z.of_nat (S n)) by (subst n; lia).
  exists (batch_loop (S n) keywords).
  pose proof (batch_loop_count n keywords) as [Hc1 Hc2]. cbv zeta in Hc1, Hc2.
  assert (Hceil : (Z.of_nat (length (batch_loop (S n) keywords)) - 1) * size
                  < Z.of_nat (length keywords)
                  <= Z.of_nat (length (batch_loop (S n) keywords)) * size).
  { rewrite Hn. nia. }
  repeat split.
  - exact Hb.
  - unfold Trends.total_batches.
    destruct (Z.eqb_spec size 0) as [H0|_]; [lia|].
    f_equal. symmetry.
    apply Z.div_unique with
      (r := Z.of_nat (length keywords) + size - 1
            - size * Z.of_nat (length (batch_loop (S n) keywords))).
    + left. nia.
    + lia.
  - apply Hceil.
  - apply Hceil.
  - apply batch_loop_concat.
  - pose proof (batch_loop_bounds n keywords) as HF.
    rewrite Forall_forall in HF.
    apply nth_error_In in H. apply HF in H. lia.
  - pose proof (batch_loop_bounds n keywords) as HF.
    rewrite Forall_forall in HF.
    apply nth_error_In in H. apply HF in H. lia.
  - intros Hlt. rewrite (batch_loop_full n keywords i b H Hlt). lia.
  - rewrite (batch_of_valid_size _ size Hs). rewrite batch_loop_nil. reflexivity.
Qed.

Lemma batch_split_exact_witness :
  exists batches,
    batch ["p"; "q"; "r"; "s"; "t"] 2 = Ok batches /\ length batches = 3%nat.
Proof.
  destruct (batch_split_exact ["p"; "q"; "r"; "s"; "t"] 2 ltac:(lia))
    as (batches & Hb & _).
  exists batches. split; [exact Hb|].
  vm_compute in Hb. injection Hb as <-. reflexivity.
Defined.

(** C3, as stated, fails: with size 0 the first slice is empty, so the
    generator stops at once without raising; the keywords are dropped. *)
Lemma batch_size_zero_accepted :
  batch ["kw"] 0 = Ok [] /\
  ~ (forall (keywords : list string) (size : Z),
        keywords <> [] -> size <= 0 ->
        exists e, batch keywords size = Raise e).
Proof.
  split; [reflexivity|].
  intros H. destruct (H ["kw"] 0) as [e He]; [discriminate|lia|].
  vm_compute in He. discriminate.
Qed.

(** C3, amended.  A negative size makes [batch] raise [ValueError] before
    any batch is produced; size 0 makes it yield no batch and raise nothing.
    [fetch_google_trends] raises for both before any provider request:
    [ZeroDivisionError] for size 0, in the division of line 117, and
    [ValueError] for a negative size, in [batch]. *)
Theorem batch_size_not_positive
    (pytrends : Z -> Z -> list string -> string -> Trends.Response)
    (geo : string) (retries backoff delay : Z)
    (keywords : list string) (size : Z) :
  size <= 0 ->
  (size < 0 ->
   batch keywords size = Raise ValueError /\
   Trends.fetch_google_trends pytrends geo retries backoff delay keywords size
   = (Raise ValueError, [])) /\
  (size = 0 ->
   batch keywords size = Ok [] /\
   Trends.fetch_google_trends pytrends geo retries backoff delay keywords size
   = (Raise ZeroDivisionError, [])).
Proof.
  intros Hs. split.
  - intros Hn.
    assert (Hbatch : batch keywords size = Raise ValueError).
    { unfold batch. destruct (Z.ltb_spec size 0); [reflexivity|lia]. }
    split; [exact Hbatch|].
    unfold Trends.fetch_google_trends, Trends.total_batches.
    destruct (Z.eqb_spec size 0) as [H0|H0]; [lia|].
    rewrite Hbatch. reflexivity.
  - intros ->. split.
    + unfold batch. simpl. rewrite batch_loop_zero. reflexivity.
    + reflexivity.
Qed.

Lemma batch_size_not_positive_witness :
  batch ["kw"] (-1) = Raise ValueError /\
  Trends.fetch_google_trends (fun _ _ _ _ => Trends.ProviderRaises)
    "IN" 3 5 15 ["kw"] (-1) = (Raise ValueError, []).
Proof.
  destruct (batch_size_not_positive (fun _ _ _ _ => Trends.ProviderRaises)
              "IN" 3 5 15 ["kw"] (-1)) as [Hneg _]; [lia|].
  apply Hneg. lia.
Defined.

End BatcherFacts.

(** * Properties of [fetch_google_trends] *)
Module TrendsFacts.
Import Trends.

Lemma run_eta (st : Run) :
  {| trends_data := trends_data st; trace := trace st |} = st.
Proof. destruct st; reflexivity. Qed.

Lemma enumerate_nth {A : Type} (bs : list A) (start : Z) (j : nat) (i : Z) (b : A) :
  nth_error (enumerate bs start) j = Some (i, b) <->
  i = start + Z.of_nat j /\ nth_error bs j = Some b.
Proof.
  revert start j. induction bs as [|b0 bs IH]; intros start j.
  - destruct j; simpl; split; intros H; try discriminate;
      destruct H; discriminate.
  - destruct j as [|j]; simpl.
    + split.
      * intros H. injection H as <- <-. split; [lia|reflexivity].
      * intros [-> H]. injection H as <-. f_equal. f_equal. lia.
    + rewrite IH. split; intros [-> H]; (split; [lia|exact H]).
Qed.

Lemma enumerate_In {A : Type} (bs : list A) (start : Z) (i : Z) (b : A) :
  In (i, b) (enumerate bs start) ->
  exists j, i = start + Z.of_nat j /\ nth_error bs j = Some b.
Proof.
  intros H. apply In_nth_error in H as [j Hj].
  exists j. apply enumerate_nth. exact Hj.
Qed.

Lemma NoDup_app_disjoint {A : Type} (l1 l2 : list A) (x : A) :
  NoDup (l1 ++ l2) -> In x l1 -> ~ In x l2.
Proof.
  induction l1 as [|a l1 IH]; intros Hnd Hin Hin2; [contradiction|].
  simpl in Hnd. apply NoDup_cons_iff in Hnd as [Hna Hnd].
  destruct Hin as [->|Hin].
  - apply Hna. apply in_or_app. right. exact Hin2.
  - exact (IH Hnd Hin Hin2).
Qed.

(** Batches of a list without duplicates share no keyword. *)
Lemma concat_disjoint {A : Type} (bs : list (list A)) :
  NoDup (concat bs) ->
  forall j j' b b' x,
    nth_error bs j = Some b -> nth_error bs j' = Some b' -> j <> j' ->
    In x b -> ~ In x b'.
Proof.
  induction bs as [|b0 bs IH]; intros Hnd j j' b b' x Hj Hj' Hne Hx Hx'.
  - destruct j; discriminate.
  - simpl in Hnd.
    assert (Hout : forall y c m, nth_error bs m = Some c -> In y c -> In y (concat bs)).
    { intros y c m Hm Hy. apply in_concat. exists c. split; [|exact Hy].
      eapply nth_error_In; exact Hm. }
    destruct j as [|j], j' as [|j']; simpl in Hj, Hj'.
    + lia.
    + injection Hj as <-.
      exact (NoDup_app_disjoint _ _ x Hnd Hx (Hout _ _ _ Hj' Hx')).
    + injection Hj' as <-.
      exact (NoDup_app_disjoint _ _ x Hnd Hx' (Hout _ _ _ Hj Hx)).
    + apply NoDup_app_remove_l in Hnd.
      apply (IH Hnd j j' b b' x); try assumption. lia.
Qed.

Section Run.
Variable pytrends : Z -> Z -> list string -> string -> Response.
Variables (geo : string) (retries backoff delay : Z).

Local Abbreviation try_body := (try_body pytrends geo delay).
Local Abbreviation attempt_loop := (attempt_loop pytrends geo retries backoff delay).
Local Abbreviation for_batches := (for_batches pytrends geo retries backoff delay).
Local Abbreviation first_success_from := (first_success_from pytrends geo).
Local Abbreviation first_success := (first_success pytrends geo retries).
Local Abbreviation retry_trace := (retry_trace geo backoff).
Local Abbreviation trace_from := (trace_from geo retries backoff delay).
Local Abbreviation batch_records := (batch_records pytrends geo retries).
Local Abbreviation batch_trace := (batch_trace pytrends geo retries backoff delay).

(** One turn of the [while] loop. *)
Lemma attempt_loop_unfold i kw_batch attempt st :
  attempt_loop i kw_batch attempt st =
  if attempt <? retries then
    match try_body i attempt kw_batch st with
    | (Normal, st) => (Normal, st)
    | (Raised _, st) =>
        if attempt + 1 <? retries then
          match sleep SleepBackoff (backoff * (attempt + 1)) st with
          | (Normal, st) => attempt_loop i kw_batch (attempt + 1) st
          | (Raised e, st) => (Raised e, st)
          end
        else (Normal, st)
    end
  else (Normal, st).
Proof.
  simp attempt_loop.
  destruct (Z_lt_dec attempt retries) as [H|H]; simpl;
    destruct (Z.ltb_spec attempt retries); try lia; reflexivity.
Qed.

Lemma collect_records data kw_batch st :
  collect data kw_batch st =
  {| trends_data := trends_data st ++ records_of data kw_batch;
     trace := trace st |}.
Proof.
  unfold collect, records_of. revert st.
  induction kw_batch as [|kw kws IH]; intros st; simpl.
  - rewrite app_nil_r. symmetry. apply run_eta.
  - rewrite IH. destruct (has_column kw data); simpl.
    + rewrite <- app_assoc. reflexivity.
    + reflexivity.
Qed.

Lemma series_drop_isPartial data kw :
  series (drop_isPartial data) kw = series data kw.
Proof.
  unfold drop_isPartial. destruct (has_column "isPartial" data); reflexivity.
Qed.

(** The [try] body when the response sends it to the handler. *)
Lemma try_body_failed i attempt kw_batch st :
  failed (pytrends i attempt kw_batch geo) = true ->
  exists e,
    try_body i attempt kw_batch st =
    (Raised e, log (Request i attempt kw_batch geo) st).
Proof.
  unfold try_body, failed. intros H.
  destruct (pytrends i attempt kw_batch geo) as [|data].
  - eexists; reflexivity.
  - rewrite H. eexists; reflexivity.
Qed.

(** The [try] body on a frame that is not empty. *)
Lemma try_body_frame i attempt kw_batch st data :
  pytrends i attempt kw_batch geo = Returns data ->
  empty data = false ->
  try_body i attempt kw_batch st =
  sleep SleepDelay delay
    {| trends_data := trends_data st ++ records_of (drop_isPartial data) kw_batch;
       trace := trace st ++ [Request i attempt kw_batch geo] |}.
Proof.
  unfold try_body. intros -> ->. rewrite collect_records. reflexivity.
Qed.

Lemma sleep_ok site seconds st :
  0 <= seconds -> sleep site seconds st = (Normal, log (site seconds) st).
Proof.
  intros H. unfold sleep. destruct (Z.ltb_spec seconds 0); [lia|reflexivity].
Qed.

Lemma attempts_nil from upto : upto <= from -> attempts from upto = [].
Proof.
  intros H. unfold attempts.
  replace (Z.to_nat (upto - from)) with O by lia. reflexivity.
Qed.

Lemma attempts_cons from upto :
  from < upto -> attempts from upto = from :: attempts (from + 1) upto.
Proof.
  intros H. unfold attempts.
  replace (Z.to_nat (upto - from)) with (S (Z.to_nat (upto - (from + 1)))) by lia.
  cbn [seq map]. f_equal; [lia|].
  rewrite <- seq_shift, map_map. apply map_ext. intros n. lia.
Qed.

Lemma attempts_In from upto a : In a (attempts from upto) <-> from <= a < upto.
Proof.
  unfold attempts. rewrite in_map_iff. split.
  - intros (n & <- & Hn). apply in_seq in Hn. lia.
  - intros H. exists (Z.to_nat (a - from)). split; [lia|].
    apply in_seq. lia.
Qed.

Lemma retry_trace_nil i kw_batch from upto :
  upto <= from -> retry_trace i kw_batch from upto = [].
Proof.
  intros H. unfold Trends.retry_trace. rewrite attempts_nil by exact H.
  reflexivity.
Qed.

Lemma retry_trace_cons i kw_batch from upto :
  from < upto ->
  retry_trace i kw_batch from upto =
  Request i from kw_batch geo :: SleepBackoff (backoff * (from + 1))
    :: retry_trace i kw_batch (from + 1) upto.
Proof.
  intros H. unfold Trends.retry_trace. rewrite attempts_cons by exact H.
  reflexivity.
Qed.

(** What [first_success_from] finds. *)
Lemma first_success_from_some i kw_batch fuel : forall attempt k data,
  first_success_from i kw_batch attempt fuel = Some (k, data) ->
  attempt <= k < attempt + Z.of_nat fuel /\
  (forall a, attempt <= a < k -> failed (pytrends i a kw_batch geo) = true) /\
  pytrends i k kw_batch geo = Returns data /\
  empty data = false.
Proof.
  induction fuel as [|fuel IH]; intros attempt k data H; [discriminate|].
  cbn [Trends.first_success_from] in H.
  assert (Hrec : first_success_from i kw_batch (attempt + 1) fuel = Some (k, data) ->
                 failed (pytrends i attempt kw_batch geo) = true ->
                 attempt <= k < attempt + Z.of_nat (S fuel) /\
                 (forall a, attempt <= a < k ->
                            failed (pytrends i a kw_batch geo) = true) /\
                 pytrends i k kw_batch geo = Returns data /\
                 empty data = false).
  { intros Hs Hf. destruct (IH _ _ _ Hs) as (Hk & Hbefore & Hat & He).
    repeat split; try lia; try assumption.
    intros a Ha. destruct (Z.eq_dec a attempt) as [->|Hne]; [exact Hf|].
    apply Hbefore. lia. }
  destruct (pytrends i attempt kw_batch geo) as [|d] eqn:Hp.
  - apply Hrec; [exact H|reflexivity].
  - destruct (empty d) eqn:He.
    + apply Hrec; [exact H|exact He].
    + injection H as <- <-. repeat split; try lia; assumption.
Qed.

Lemma first_success_from_none i kw_batch fuel : forall attempt,
  first_success_from i kw_batch attempt fuel = None ->
  forall a, attempt <= a < attempt + Z.of_nat fuel ->
            failed (pytrends i a kw_batch geo) = true.
Proof.
  induction fuel as [|fuel IH]; intros attempt H a Ha; [lia|].
  cbn [Trends.first_success_from] in H.
  destruct (Z.eq_dec a attempt) as [->|Hne].
  - destruct (pytrends i attempt kw_batch geo) as [|d]; [reflexivity|].
    simpl. destruct (empty d); [reflexivity|discriminate].
  - apply (IH (attempt + 1)); [|lia].
    destruct (pytrends i attempt kw_batch geo) as [|d]; [exact H|].
    destruct (empty d); [exact H|discriminate].
Qed.

Lemma first_success_from_all_failed i kw_batch fuel : forall attempt,
  (forall a, attempt <= a < attempt + Z.of_nat fuel ->
             failed (pytrends i a kw_batch geo) = true) ->
  first_success_from i kw_batch attempt fuel = None.
Proof.
  induction fuel as [|fuel IH]; intros attempt H; [reflexivity|].
  cbn [Trends.first_success_from].
  pose proof (H attempt ltac:(lia)) as Hf. unfold failed in Hf.
  destruct (pytrends i attempt kw_batch geo) as [|d].
  - apply IH. intros a Ha. apply H. lia.
  - rewrite Hf. apply IH. intros a Ha. apply H. lia.
Qed.

Lemma first_success_from_found i kw_batch fuel : forall attempt k data,
  attempt <= k < attempt + Z.of_nat fuel ->
  (forall a, attempt <= a < k -> failed (pytrends i a kw_batch geo) = true) ->
  pytrends i k kw_batch geo = Returns data ->
  empty data = false ->
  first_success_from i kw_batch attempt fuel = Some (k, data).
Proof.
  induction fuel as [|fuel IH]; intros attempt k data Hk Hbefore Hat He; [lia|].
  cbn [Trends.first_success_from].
  destruct (Z.eq_dec k attempt) as [->|Hne].
  - rewrite Hat, He. reflexivity.
  - pose proof (Hbefore attempt ltac:(lia)) as Hf. unfold failed in Hf.
    assert (Hrec : first_success_from i kw_batch (attempt + 1) fuel = Some (k, data)).
    { apply IH; try assumption; [lia|]. intros a Ha. apply Hbefore. lia. }
    destruct (pytrends i attempt kw_batch geo) as [|d]; [exact Hrec|].
    rewrite Hf. exact Hrec.
Qed.

(** The handler of a failed attempt, under a non-negative backoff. *)
Lemma attempt_loop_failed i kw_batch attempt st :
  0 <= backoff -> 0 <= attempt -> attempt < retries ->
  failed (pytrends i attempt kw_batch geo) = true ->
  attempt_loop i kw_batch attempt st =
  if attempt + 1 <? retries
  then attempt_loop i kw_batch (attempt + 1)
         (log (SleepBackoff (backoff * (attempt + 1)))
              (log (Request i attempt kw_batch geo) st))
  else (Normal, log (Request i attempt kw_batch geo) st).
Proof.
  intros Hb Ha Hlt Hf.
  rewrite attempt_loop_unfold.
  destruct (Z.ltb_spec attempt retries) as [_|]; [|lia].
  destruct (try_body_failed i attempt kw_batch st Hf) as [e ->].
  destruct (attempt + 1 <? retries); [|reflexivity].
  rewrite sleep_ok by nia. reflexivity.
Qed.

(** The attempt that gets a frame that is not empty, under a non-negative
    delay. *)
Lemma attempt_loop_frame i kw_batch attempt st data :
  0 <= delay -> attempt < retries ->
  pytrends i attempt kw_batch geo = Returns data ->
  empty data = false ->
  attempt_loop i kw_batch attempt st =
  (Normal,
   {| trends_data := trends_data st ++ records_of (drop_isPartial data) kw_batch;
      trace := trace st ++ [Request i attempt kw_batch geo; SleepDelay delay] |}).
Proof.
  intros Hd Hlt Hp He.
  rewrite attempt_loop_unfold.
  destruct (Z.ltb_spec attempt retries) as [_|]; [|lia].
  rewrite (try_body_frame i attempt kw_batch st data Hp He).
  rewrite sleep_ok by exact Hd.
  unfold log; simpl. rewrite <- app_assoc. reflexivity.
Qed.

(** The whole [while] loop of a batch, for non-negative sleeps. *)
Lemma attempt_loop_run i kw_batch (fuel : nat) : forall attempt st,
  0 <= delay -> 0 <= backoff -> 0 <= attempt ->
  fuel = Z.to_nat (retries - attempt) ->
  attempt_loop i kw_batch attempt st =
  (Normal,
   {| trends_data :=
        trends_data st
        ++ records_from kw_batch (first_success_from i kw_batch attempt fuel);
      trace :=
        trace st
        ++ trace_from i kw_batch attempt
             (first_success_from i kw_batch attempt fuel) |}).
Proof.
  induction fuel as [|fuel IH]; intros attempt st Hd Hb Ha Hfuel.
  - rewrite attempt_loop_unfold. simpl.
    destruct (Z.ltb_spec attempt retries) as [|_]; [lia|].
    rewrite !app_nil_r, run_eta. reflexivity.
  - assert (Hlt : attempt < retries) by lia.
    assert (Hfail : failed (pytrends i attempt kw_batch geo) = true ->
      attempt_loop i kw_batch attempt st =
      (Normal,
       {| trends_data :=
            trends_data st
            ++ records_from kw_batch (first_success_from i kw_batch (attempt + 1) fuel);
          trace :=
            trace st
            ++ trace_from i kw_batch attempt
                 (first_success_from i kw_batch (attempt + 1) fuel) |})).
    { intros Hf.
      rewrite (attempt_loop_failed i kw_batch attempt st Hb Ha Hlt Hf).
      destruct (Z.ltb_spec (attempt + 1) retries) as [Hnext|Hlast].
      - rewrite (IH (attempt + 1)) by lia.
        f_equal. unfold log; simpl. f_equal.
        rewrite <- !app_assoc. f_equal. simpl.
        destruct (first_success_from i kw_batch (attempt + 1) fuel)
          as [[k data]|] eqn:Hfs; simpl.
        + apply first_success_from_some in Hfs as (Hk & _).
          rewrite (retry_trace_cons i kw_batch attempt k) by lia.
          reflexivity.
        + destruct (Z.ltb_spec (attempt + 1) retries) as [_|]; [|lia].
          destruct (Z.ltb_spec attempt retries) as [_|]; [|lia].
          rewrite (retry_trace_cons i kw_batch attempt (retries - 1)) by lia.
          reflexivity.
      - assert (fuel = O) by lia. subst fuel. simpl.
        destruct (Z.ltb_spec attempt retries) as [_|]; [|lia].
        rewrite retry_trace_nil by lia.
        replace (retries - 1) with attempt by lia.
        rewrite app_nil_r. reflexivity. }
    cbn [Trends.first_success_from].
    destruct (pytrends i attempt kw_batch geo) as [|data] eqn:Hp.
    + apply Hfail. reflexivity.
    + destruct (empty data) eqn:He.
      * apply Hfail. exact He.
      * rewrite (attempt_loop_frame i kw_batch attempt st data Hd Hlt Hp He).
        simpl. rewrite retry_trace_nil by lia. reflexivity.
Qed.

(** The [for] loop over the numbered batches, for non-negative sleeps. *)
Lemma for_batches_run numbered : forall st,
  0 <= delay -> 0 <= backoff ->
  for_batches numbered st =
  (Normal,
   {| trends_data := trends_data st ++ concat (map batch_records numbered);
      trace := trace st ++ concat (map batch_trace numbered) |}).
Proof.
  induction numbered as [|[i kw_batch] numbered IH]; intros st Hd Hb.
  - simpl. rewrite !app_nil_r, run_eta. reflexivity.
  - cbn [Trends.for_batches].
    rewrite (attempt_loop_run i kw_batch (Z.to_nat retries) 0 st Hd Hb)
      by (try lia; f_equal; lia).
    rewrite IH by assumption. simpl.
    rewrite <- !app_assoc. reflexivity.
Qed.

(** The whole fetch, for a valid batch size and non-negative sleeps. *)
Lemma fetch_run keywords batch_size :
  1 <= batch_size -> 0 <= delay -> 0 <= backoff ->
  exists batches,
    Batcher.batch keywords batch_size = Ok batches /\
    fetch_google_trends pytrends geo retries backoff delay keywords batch_size =
    (Ok (concat (map batch_records (enumerate batches 1))),
     concat (map batch_trace (enumerate batches 1))).
Proof.
  intros Hs Hd Hb.
  pose proof (BatcherFacts.batch_of_valid_size keywords batch_size Hs) as Hbatch.
  eexists. split; [exact Hbatch|].
  unfold fetch_google_trends, total_batches.
  destruct (Z.eqb_spec batch_size 0); [lia|].
  rewrite Hbatch. rewrite for_batches_run by assumption.
  reflexivity.
Qed.

(** The loop only adds events. *)
Lemma try_body_trace i attempt kw_batch st :
  exists rest,
    trace (snd (try_body i attempt kw_batch st)) =
    trace st ++ Request i attempt kw_batch geo :: rest.
Proof.
  unfold Trends.try_body.
  destruct (pytrends i attempt kw_batch geo) as [|data].
  - exists []. reflexivity.
  - destruct (empty data).
    + exists []. reflexivity.
    + rewrite collect_records. unfold sleep.
      destruct (delay <? 0); simpl.
      * exists []. reflexivity.
      * exists [SleepDelay delay]. rewrite <- app_assoc. reflexivity.
Qed.

Lemma attempt_loop_trace i kw_batch (fuel : nat) : forall attempt st,
  fuel = Z.to_nat (retries - attempt) ->
  exists rest,
    trace (snd (attempt_loop i kw_batch attempt st)) = trace st ++ rest.
Proof.
  induction fuel as [|fuel IH]; intros attempt st Hfuel;
    rewrite attempt_loop_unfold;
    destruct (Z.ltb_spec attempt retries) as [Hlt|Hge]; try lia.
  - exists []. rewrite app_nil_r. reflexivity.
  - destruct (try_body_trace i attempt kw_batch st) as [r1 Hr1].
    destruct (try_body i attempt kw_batch st) as [[|e] st1]; simpl in Hr1.
    + eexists. exact Hr1.
    + destruct (attempt + 1 <? retries).
      * unfold sleep. destruct (backoff * (attempt + 1) <? 0).
        -- eexists. exact Hr1.
        -- destruct (IH (attempt + 1)
                       (log (SleepBackoff (backoff * (attempt + 1))) st1)
                       ltac:(lia)) as [r2 Hr2].
           rewrite Hr2. simpl. rewrite Hr1, <- !app_assoc.
           eexists. reflexivity.
      * eexists. exact Hr1.
Qed.

(** An attempt that is made starts with its provider request. *)
Lemma attempt_loop_trace_head i kw_batch attempt st :
  attempt < retries ->
  exists rest,
    trace (snd (attempt_loop i kw_batch attempt st)) =
    trace st ++ Request i attempt kw_batch geo :: rest.
Proof.
  intros Hlt. rewrite attempt_loop_unfold.
  destruct (Z.ltb_spec attempt retries) as [_|]; [|lia].
  destruct (try_body_trace i attempt kw_batch st) as [r1 Hr1].
  destruct (try_body i attempt kw_batch st) as [[|e] st1]; simpl in Hr1.
  - eexists. exact Hr1.
  - destruct (attempt + 1 <? retries).
    + unfold sleep. destruct (backoff * (attempt + 1) <? 0).
      * eexists. exact Hr1.
      * destruct (attempt_loop_trace i kw_batch _ (attempt + 1)
                    (log (SleepBackoff (backoff * (attempt + 1))) st1)
                    eq_refl) as [r2 Hr2].
        rewrite Hr2. simpl. rewrite Hr1, <- !app_assoc.
        eexists. reflexivity.
    + eexists. exact Hr1.
Qed.

(** A run of failed attempts, for a non-negative backoff: the loop reaches
    the next attempt with the same records and the retry events logged. *)
Lemma attempt_loop_retries i kw_batch (n : nat) : forall attempt st,
  0 <= backoff -> 0 <= attempt ->
  attempt + Z.of_nat n < retries ->
  (forall a, attempt <= a < attempt + Z.of_nat n ->
             failed (pytrends i a kw_batch geo) = true) ->
  attempt_loop i kw_batch attempt st =
  attempt_loop i kw_batch (attempt + Z.of_nat n)
    {| trends_data := trends_data st;
       trace := trace st
                ++ retry_trace i kw_batch attempt (attempt + Z.of_nat n) |}.
Proof.
  induction n as [|n IH]; intros attempt st Hb Ha Hlt Hfail.
  - rewrite retry_trace_nil by lia. rewrite app_nil_r, run_eta.
    f_equal. lia.
  - rewrite (attempt_loop_failed i kw_batch attempt st Hb Ha) by (try apply Hfail; lia).
    destruct (Z.ltb_spec (attempt + 1) retries) as [_|]; [|lia].
    rewrite (IH (attempt + 1)); try lia.
    + rewrite (retry_trace_cons i kw_batch attempt) by lia.
      replace (attempt + 1 + Z.of_nat n) with (attempt + Z.of_nat (S n)) by lia.
      f_equal. unfold log; simpl. f_equal.
      rewrite <- !app_assoc. reflexivity.
    + intros a Ha'. apply Hfail. lia.
Qed.

Lemma retry_trace_snoc i kw_batch from upto :
  from <= upto ->
  retry_trace i kw_batch from (upto + 1) =
  retry_trace i kw_batch from upto
  ++ [Request i upto kw_batch geo; SleepBackoff (backoff * (upto + 1))].
Proof.
  intros H.
  remember (Z.to_nat (upto - from)) as n eqn:Hn.
  revert from H Hn. induction n as [|n IH]; intros from H Hn.
  - assert (from = upto) by lia. subst from.
    rewrite retry_trace_cons by lia.
    rewrite !retry_trace_nil by lia. reflexivity.
  - rewrite (retry_trace_cons i kw_batch from (upto + 1)) by lia.
    rewrite (retry_trace_cons i kw_batch from upto) by lia.
    rewrite (IH (from + 1)) by lia. reflexivity.
Qed.

Lemma retry_trace_no_delay i kw_batch from upto seconds :
  ~ In (SleepDelay seconds) (retry_trace i kw_batch from upto).
Proof.
  unfold Trends.retry_trace. rewrite in_flat_map.
  intros (a & _ & [H|[H|[]]]); discriminate.
Qed.

(** With no attempt allowed, the loops leave the state as it is. *)
Lemma for_batches_no_attempt numbered st :
  retries <= 0 -> for_batches numbered st = (Normal, st).
Proof.
  intros H. induction numbered as [|[i kw_batch] numbered IH]; [reflexivity|].
  cbn [Trends.for_batches]. rewrite attempt_loop_unfold.
  destruct (Z.ltb_spec 0 retries); [lia|]. exact IH.
Qed.

Lemma records_of_keywords data kw_batch r :
  In r (records_of data kw_batch) -> In (keyword r) kw_batch.
Proof.
  unfold records_of. rewrite in_map_iff.
  intros (kw & <- & Hin). apply filter_In in Hin. apply Hin.
Qed.

Lemma records_of_complete data kw_batch :
  (forall kw, In kw kw_batch -> In kw (columns data)) ->
  map keyword (records_of data kw_batch) = kw_batch.
Proof.
  intros H. unfold records_of. rewrite map_map. simpl.
  rewrite map_id.
  induction kw_batch as [|kw kws IH]; [reflexivity|]. simpl.
  unfold has_column at 1.
  destruct (in_dec string_dec kw (columns data)) as [_|Hn].
  - f_equal. apply IH. intros kw' Hin. apply H. right. exact Hin.
  - exfalso. apply Hn. apply H. left. reflexivity.
Qed.

Lemma first_success_found i kw_batch k data :
  0 <= k < retries ->
  (forall a, 0 <= a < k -> failed (pytrends i a kw_batch geo) = true) ->
  pytrends i k kw_batch geo = Returns data ->
  empty data = false ->
  first_success i kw_batch = Some (k, data).
Proof.
  intros Hk Hbefore Hat He. unfold Trends.first_success.
  apply first_success_from_found; try assumption. lia.
Qed.

Lemma first_success_exhausted i kw_batch :
  (forall a, 0 <= a < retries -> failed (pytrends i a kw_batch geo) = true) ->
  first_success i kw_batch = None.
Proof.
  intros H. unfold Trends.first_success.
  apply first_success_from_all_failed. intros a Ha. apply H. lia.
Qed.
End Run.


Section Claims.
Variable pytrends : Z -> Z -> list string -> string -> Response.
Variables (geo : string) (retries backoff delay : Z).

Local Abbreviation try_body := (try_body pytrends geo delay).
Local Abbreviation attempt_loop := (attempt_loop pytrends geo retries backoff delay).
Local Abbreviation fetch_google_trends :=
  (fetch_google_trends pytrends geo retries backoff delay).
Local Abbreviation retry_trace := (retry_trace geo backoff).
Local Abbreviation batch_records := (batch_records pytrends geo retries).
Local Abbreviation batch_trace := (batch_trace pytrends geo retries backoff delay).

(** C2, amended.  For a valid batch size and non-negative sleeps the trace
    of the run is the concatenation of the traces of its batches, in
    order.  The trace of a batch that succeeds at attempt [k], be it the
    last batch of the run or not, is its [k] failed attempts with their
    backoff sleeps, the successful request, and then the delay sleep as its
    last event; the trace of a batch that exhausts its retries holds no
    delay sleep. *)
Theorem delay_after_each_success (keywords : list string) (batch_size : Z)
    (batches : list (list string)) :
  1 <= batch_size -> 0 <= delay -> 0 <= backoff ->
  Batcher.batch keywords batch_size = Ok batches ->
  (exists records,
      fetch_google_trends keywords batch_size =
      (Ok records, concat (map batch_trace (enumerate batches 1)))) /\
  forall j kw_batch,
    nth_error batches j = Some kw_batch ->
    let i := 1 + Z.of_nat j in
    (forall k data,
        0 <= k < retries ->
        (forall a, 0 <= a < k -> failed (pytrends i a kw_batch geo) = true) ->
        pytrends i k kw_batch geo = Returns data ->
        empty data = false ->
        batch_trace (i, kw_batch) =
        retry_trace i kw_batch 0 k
        ++ [Request i k kw_batch geo; SleepDelay delay] /\
        forall seconds, ~ In (SleepDelay seconds) (retry_trace i kw_batch 0 k)) /\
    ((forall a, 0 <= a < retries -> failed (pytrends i a kw_batch geo) = true) ->
     forall seconds, ~ In (SleepDelay seconds) (batch_trace (i, kw_batch))).
Proof.
  intros Hs Hd Hb Hbatch. split.
  - destruct (fetch_run pytrends geo retries backoff delay keywords batch_size
                Hs Hd Hb) as (bs & Hbs & Hrun).
    rewrite Hbatch in Hbs. injection Hbs as <-.
    eexists. exact Hrun.
  - intros j kw_batch Hj i. split.
    + intros k data Hk Hbefore Hat He. split.
      * unfold Trends.batch_trace.
        rewrite (first_success_found pytrends geo retries i kw_batch k data)
          by assumption.
        reflexivity.
      * intros seconds. apply retry_trace_no_delay.
    + intros Hall seconds. unfold Trends.batch_trace.
      rewrite (first_success_exhausted pytrends geo retries i kw_batch Hall).
      unfold trace_from. destruct (0 <? retries); [|intros []].
      intros Hin. apply in_app_or in Hin as [Hin|[Hin|[]]].
      * exact (retry_trace_no_delay geo backoff _ _ _ _ _ Hin).
      * discriminate.
Qed.

(** C5.  For a valid batch size and non-negative sleeps: if for every
    batch some attempt within [retries] gets a frame that is not empty and
    has a series column for every keyword of the batch, the attempts
    before it having failed, then the fetch returns the records of the
    input keywords, one per keyword and in input order; so there are as
    many records as keywords and the keywords of the records are those of
    the input. *)
Theorem fetch_complete (keywords : list string) (batch_size : Z)
    (batches : list (list string)) :
  1 <= batch_size -> 0 <= delay -> 0 <= backoff ->
  Batcher.batch keywords batch_size = Ok batches ->
  (forall j kw_batch,
      nth_error batches j = Some kw_batch ->
      exists k data,
        0 <= k < retries /\
        (forall a, 0 <= a < k ->
                   failed (pytrends (1 + Z.of_nat j) a kw_batch geo) = true) /\
        pytrends (1 + Z.of_nat j) k kw_batch geo = Returns data /\
        empty data = false /\
        (forall kw, In kw kw_batch -> In kw (columns (drop_isPartial data)))) ->
  exists records tr,
    fetch_google_trends keywords batch_size = (Ok records, tr) /\
    map keyword records = keywords /\
    length records = length keywords /\
    (forall kw, In kw (map keyword records) <-> In kw keywords).
Proof.
  intros Hs Hd Hb Hbatch Hall.
  destruct (fetch_run pytrends geo retries backoff delay keywords batch_size
              Hs Hd Hb) as (bs & Hbs & Hrun).
  rewrite Hbatch in Hbs. injection Hbs as <-.
  assert (Hcat : concat batches = keywords).
  { exact (BatcherFacts.batch_split_concat keywords batch_size batches Hs Hbatch). }
  assert (Hgen : forall bs start_,
    (forall j kw_batch,
        nth_error bs j = Some kw_batch ->
        exists k data,
          0 <= k < retries /\
          (forall a, 0 <= a < k ->
                     failed (pytrends (start_ + Z.of_nat j) a kw_batch geo) = true) /\
          pytrends (start_ + Z.of_nat j) k kw_batch geo = Returns data /\
          empty data = false /\
          (forall kw, In kw kw_batch -> In kw (columns (drop_isPartial data)))) ->
    map keyword (concat (map batch_records (enumerate bs start_))) = concat bs).
  { clear. induction bs as [|b bs IH]; intros start_ Hall; [reflexivity|].
    cbn [enumerate map concat]. rewrite map_app. f_equal.
    - destruct (Hall O b eq_refl) as (k & data & Hk & Hbefore & Hat & He & Hcols).
      replace (start_ + Z.of_nat 0) with start_ in * by lia.
      unfold Trends.batch_records.
      rewrite (first_success_found pytrends geo retries start_ b k data)
        by assumption.
      apply records_of_complete. exact Hcols.
    - apply IH. intros j kw_batch Hj.
      replace (start_ + 1 + Z.of_nat j) with (start_ + Z.of_nat (S j)) by lia.
      apply (Hall (S j)). exact Hj. }
  assert (Hkw : map keyword (concat (map batch_records (enumerate batches 1)))
                = keywords).
  { rewrite <- Hcat. apply Hgen. exact Hall. }
  exists (concat (map batch_records (enumerate batches 1))).
  eexists. split; [exact Hrun|]. split; [exact Hkw|]. split.
  - transitivity (length (map keyword (concat (map batch_records (enumerate batches 1))))).
    + symmetry. apply length_map.
    + rewrite Hkw. reflexivity.
  - intros kw. rewrite Hkw. reflexivity.
Qed.

(** C6.  For a valid batch size and non-negative sleeps: if every one of
    the [retries] attempts of a batch fails, the fetch still returns (it
    does not raise); that batch adds no record, so when the input has no
    duplicate keyword none of its keywords is in the output; and the
    records of every batch that gets a non-empty frame within its retries
    are all in the output. *)
Theorem exhausted_batch_isolated (keywords : list string) (batch_size : Z)
    (batches : list (list string)) (j : nat) (kw_batch : list string) :
  1 <= batch_size -> 0 <= delay -> 0 <= backoff ->
  Batcher.batch keywords batch_size = Ok batches ->
  nth_error batches j = Some kw_batch ->
  (forall a, 0 <= a < retries ->
             failed (pytrends (1 + Z.of_nat j) a kw_batch geo) = true) ->
  exists records tr,
    fetch_google_trends keywords batch_size = (Ok records, tr) /\
    records = concat (map batch_records (enumerate batches 1)) /\
    batch_records (1 + Z.of_nat j, kw_batch) = [] /\
    (NoDup keywords ->
     forall kw, In kw kw_batch -> ~ In kw (map keyword records)) /\
    (forall j' kw_batch' k data,
        nth_error batches j' = Some kw_batch' ->
        0 <= k < retries ->
        (forall a, 0 <= a < k ->
                   failed (pytrends (1 + Z.of_nat j') a kw_batch' geo) = true) ->
        pytrends (1 + Z.of_nat j') k kw_batch' geo = Returns data ->
        empty data = false ->
        incl (records_of (drop_isPartial data) kw_batch') records).
Proof.
  intros Hs Hd Hb Hbatch Hj Hall.
  destruct (fetch_run pytrends geo retries backoff delay keywords batch_size
              Hs Hd Hb) as (bs & Hbs & Hrun).
  rewrite Hbatch in Hbs. injection Hbs as <-.
  pose proof (BatcherFacts.batch_split_concat keywords batch_size batches
                Hs Hbatch) as Hcat.
  assert (Hnone : batch_records (1 + Z.of_nat j, kw_batch) = []).
  { unfold Trends.batch_records.
    rewrite (first_success_exhausted pytrends geo retries _ kw_batch Hall).
    reflexivity. }
  exists (concat (map batch_records (enumerate batches 1))).
  eexists. split; [exact Hrun|]. split; [reflexivity|]. split; [exact Hnone|].
  split.
  - intros Hnd kw Hkw Hin.
    apply in_map_iff in Hin as (r & Hr & Hin).
    apply in_concat in Hin as (rs & Hrs & Hin).
    apply in_map_iff in Hrs as ([i' b'] & <- & Hnum).
    apply enumerate_In in Hnum as (j' & -> & Hj').
    destruct (Nat.eq_dec j' j) as [->|Hne].
    + rewrite Hj in Hj'. injection Hj' as <-.
      rewrite Hnone in Hin. contradiction.
    + unfold Trends.batch_records in Hin.
      destruct (first_success pytrends geo retries (1 + Z.of_nat j') b')
        as [[k data]|]; simpl in Hin; [|contradiction].
      apply records_of_keywords in Hin. rewrite Hr in Hin.
      rewrite <- Hcat in Hnd.
      exact (concat_disjoint batches Hnd j j' kw_batch b' kw Hj Hj'
               (not_eq_sym Hne) Hkw Hin).
  - intros j' kw_batch' k data Hj' Hk Hbefore Hat He r Hr.
    apply in_concat. exists (batch_records (1 + Z.of_nat j', kw_batch')).
    split.
    + apply in_map. apply (nth_error_In _ j').
      apply enumerate_nth. split; [reflexivity|exact Hj'].
    + unfold Trends.batch_records.
      rewrite (first_success_found pytrends geo retries _ kw_batch' k data)
        by assumption.
      exact Hr.
Qed.

(** C7.  For a non-negative backoff: when the first [k] attempts of a
    batch fail and [k < retries], then for every [n] from 1 to [k] the
    request of attempt [n] (made with the counter at [n - 1]) is followed
    by one sleep of [backoff * n] and then by the request of attempt
    [n + 1]. *)
Theorem backoff_is_linear (i : Z) (kw_batch : list string) (st : Run) (k : Z) :
  0 <= backoff -> 0 <= k < retries ->
  (forall a, 0 <= a < k -> failed (pytrends i a kw_batch geo) = true) ->
  forall n, 1 <= n <= k ->
  exists before after,
    trace (snd (attempt_loop i kw_batch 0 st)) =
    trace st ++ before
    ++ [Request i (n - 1) kw_batch geo;
        SleepBackoff (backoff * n);
        Request i n kw_batch geo]
    ++ after.
Proof.
  intros Hb Hk Hfail n Hn.
  pose proof (attempt_loop_retries pytrends geo retries backoff delay
                i kw_batch (Z.to_nat n) 0 st Hb ltac:(lia)) as Hrun.
  replace (0 + Z.of_nat (Z.to_nat n)) with n in Hrun by lia.
  rewrite Hrun; [|lia|intros a Ha; apply Hfail; lia].
  destruct (attempt_loop_trace_head pytrends geo retries backoff delay
              i kw_batch n
              {| trends_data := trends_data st;
                 trace := trace st ++ retry_trace i kw_batch 0 n |}
              ltac:(lia)) as [after Hafter].
  assert (Hsplit : retry_trace i kw_batch 0 n =
                   retry_trace i kw_batch 0 (n - 1)
                   ++ [Request i (n - 1) kw_batch geo; SleepBackoff (backoff * n)]).
  { pose proof (retry_trace_snoc geo backoff i kw_batch 0 (n - 1) ltac:(lia)) as H.
    replace (n - 1 + 1) with n in H by lia. exact H. }
  rewrite Hafter. cbn [trace]. rewrite Hsplit.
  exists (retry_trace i kw_batch 0 (n - 1)), after.
  rewrite <- !app_assoc. reflexivity.
Qed.

(** C8.  For non-negative sleeps, an attempt that gets a frame: when the
    frame is empty the [try] body raises after the request with no record
    added, and the loop goes on as after any failure: backoff sleep and
    next attempt when one is left, end of the batch otherwise.  When the
    frame is not empty the batch ends there, having added, in batch order,
    one record for each keyword of the batch that is a series column of
    the frame, its score the mean of that column, and none for the
    others. *)
Theorem empty_fails_partial_accepted (i attempt : Z) (kw_batch : list string)
    (st : Run) (data : DataFrame) :
  0 <= delay -> 0 <= backoff -> 0 <= attempt < retries ->
  pytrends i attempt kw_batch geo = Returns data ->
  (empty data = true ->
   try_body i attempt kw_batch st =
     (Raised ValueError, log (Request i attempt kw_batch geo) st) /\
   attempt_loop i kw_batch attempt st =
     if attempt + 1 <? retries
     then attempt_loop i kw_batch (attempt + 1)
            (log (SleepBackoff (backoff * (attempt + 1)))
                 (log (Request i attempt kw_batch geo) st))
     else (Normal, log (Request i attempt kw_batch geo) st)) /\
  (empty data = false ->
   attempt_loop i kw_batch attempt st =
     (Normal,
      {| trends_data :=
           trends_data st
           ++ map (fun kw => {| keyword := kw;
                                trends_score := mean (series data kw) |})
                  (filter (fun kw => has_column kw (drop_isPartial data))
                          kw_batch);
         trace := trace st
                  ++ [Request i attempt kw_batch geo; SleepDelay delay] |})).
Proof.
  intros Hd Hb Ha Hp. split; intros He.
  - split.
    + unfold Trends.try_body. rewrite Hp, He. reflexivity.
    + apply attempt_loop_failed; try lia.
      unfold failed. rewrite Hp. exact He.
  - rewrite (attempt_loop_frame pytrends geo retries backoff delay
               i kw_batch attempt st data Hd ltac:(lia) Hp He).
    unfold records_of. do 3 f_equal.
    apply map_ext. intros kw. rewrite series_drop_isPartial. reflexivity.
Qed.
End Claims.

(** C10.  With [retries = 0] and a valid batch size the fetch makes no
    provider request and no sleep, and returns the empty list. *)
Theorem fetch_zero_retries
    (pytrends : Z -> Z -> list string -> string -> Response)
    (geo : string) (backoff delay : Z) (keywords : list string) (batch_size : Z) :
  1 <= batch_size ->
  fetch_google_trends pytrends geo 0 backoff delay keywords batch_size = (Ok [], []).
Proof.
  intros Hs. unfold fetch_google_trends, total_batches.
  destruct (Z.eqb_spec batch_size 0); [lia|].
  rewrite (BatcherFacts.batch_of_valid_size keywords batch_size Hs).
  rewrite for_batches_no_attempt by lia. reflexivity.
Qed.

Local Open Scope string_scope.
Local Open Scope list_scope.

Lemma delay_after_each_success_witness :
  exists records,
    fetch_google_trends Scenario.reliable "IN" 3 5 15 ["p"; "q"; "r"] 2 =
    (Ok records,
     concat (map (batch_trace Scenario.reliable "IN" 3 5 15)
                 (enumerate [["p"; "q"]; ["r"]] 1))).
Proof.
  apply (delay_after_each_success Scenario.reliable "IN" 3 5 15
           ["p"; "q"; "r"] 2 [["p"; "q"]; ["r"]]); try lia.
  reflexivity.
Defined.

(** C2, as stated, fails: a run of one batch, which is then the last batch,
    ends with the delay sleep. *)
Lemma delay_after_last_batch :
  snd (fetch_google_trends Scenario.reliable "IN" 3 5 15 ["kw"] 5) =
    [Request 1 0 ["kw"] "IN"; SleepDelay 15] /\
  ~ (forall pytrends geo retries backoff delay keywords batch_size records tr,
        fetch_google_trends pytrends geo retries backoff delay keywords batch_size
        = (Ok records, tr) ->
        forall before, tr <> before ++ [SleepDelay delay]).
Proof.
  split; [reflexivity|].
  intros H.
  assert (Hrun : fetch_google_trends Scenario.reliable "IN" 3 5 15 ["kw"] 5 =
                 (Ok [{| keyword := "kw"; trends_score := mean [40; 60] |}],
                  [Request 1 0 ["kw"] "IN"; SleepDelay 15])) by reflexivity.
  exact (H _ _ _ _ _ _ _ _ _ Hrun [Request 1 0 ["kw"] "IN"] eq_refl).
Qed.

Lemma fetch_complete_witness :
  exists records tr,
    fetch_google_trends Scenario.flaky "IN" 3 5 15 ["p"; "q"] 2 = (Ok records, tr) /\
    map keyword records = ["p"; "q"].
Proof.
  destruct (fetch_complete Scenario.flaky "IN" 3 5 15 ["p"; "q"] 2 [["p"; "q"]])
    as (records & tr & Hrun & Hkw & _); try lia.
  - reflexivity.
  - intros j kw_batch Hj.
    destruct j as [|j]; [|destruct j; discriminate].
    injection Hj as <-.
    exists 1, (Scenario.frame ["p"; "q"]).
    split; [lia|]. split.
    + intros a Ha. replace a with 0 by lia. reflexivity.
    + split; [reflexivity|]. split; [reflexivity|].
      intros kw [<-|[<-|[]]]; vm_compute; tauto.
  - exists records, tr. split; assumption.
Defined.

Lemma exhausted_batch_isolated_witness :
  exists records tr,
    fetch_google_trends Scenario.flaky "IN" 3 5 15 Scenario.keywords 2
    = (Ok records, tr) /\
    map keyword records = ["p"; "q"; "t"; "u"].
Proof.
  destruct (exhausted_batch_isolated Scenario.flaky "IN" 3 5 15
              Scenario.keywords 2 [["p"; "q"]; ["r"; "s"]; ["t"; "u"]]
              1%nat ["r"; "s"])
    as (records & tr & Hrun & Hrec & _); try lia.
  - reflexivity.
  - reflexivity.
  - intros a Ha. reflexivity.
  - exists records, tr. split; [exact Hrun|].
    rewrite Hrec. reflexivity.
Defined.

Lemma backoff_is_linear_witness :
  exists before after,
    trace (snd (attempt_loop Scenario.flaky "IN" 3 5 15 2 ["r"; "s"] 0 start)) =
    trace start ++ before
    ++ [Request 2 (2 - 1) ["r"; "s"] "IN";
        SleepBackoff (5 * 2);
        Request 2 2 ["r"; "s"] "IN"]
    ++ after.
Proof.
  apply (backoff_is_linear Scenario.flaky "IN" 3 5 15 2 ["r"; "s"] start 2);
    try lia.
  intros a Ha. reflexivity.
Defined.

Lemma empty_fails_partial_accepted_witness :
  attempt_loop Scenario.partial "IN" 3 5 15 1 ["p"; "q"] 0 start =
  (Normal,
   {| trends_data := [{| keyword := "p"; trends_score := mean [40; 60] |}];
      trace := [Request 1 0 ["p"; "q"] "IN"; SleepDelay 15] |}).
Proof.
  destruct (empty_fails_partial_accepted Scenario.partial "IN" 3 5 15
              1 0 ["p"; "q"] start (Scenario.frame ["p"])) as [_ Hframe];
    try lia.
  - reflexivity.
  - rewrite Hframe by reflexivity. reflexivity.
Defined.

Lemma fetch_zero_retries_witness :
  fetch_google_trends Scenario.reliable "IN" 0 5 15 Scenario.keywords 5
  = (Ok [], []).
Proof.
  apply (fetch_zero_retries Scenario.reliable "IN" 5 15 Scenario.keywords 5).
  lia.
Defined.

End TrendsFacts.

(** * Properties of the merge stage *)
Module MergerFacts.
Import Merger.

Local Open Scope string_scope.
Local Open Scope list_scope.

Lemma matches_absent row right :
  ~ In (keyword row) (map keyword right) -> matches row right = [].
Proof.
  unfold matches. induction right as [|r right IH]; intros Hn; [reflexivity|].
  simpl in *. destruct (String.eqb_spec (keyword r) (keyword row)) as [E|_].
  - exfalso. apply Hn. left. exact E.
  - apply IH. intros H. apply Hn. right. exact H.
Qed.

(** With at most one cost row per keyword a row matches at most once. *)
Lemma matches_at_most_one row right :
  NoDup (map keyword right) ->
  matches row right = [] \/ exists r, matches row right = [r].
Proof.
  induction right as [|r right IH]; intros Hnd; [left; reflexivity|].
  simpl in Hnd. apply NoDup_cons_iff in Hnd as [Hnotin Hnd].
  unfold matches in *. simpl.
  destruct (String.eqb_spec (keyword r) (keyword row)) as [E|_].
  - right. exists r. f_equal.
    apply (matches_absent row right). rewrite <- E. exact Hnotin.
  - apply IH. exact Hnd.
Qed.

Lemma matches_frame_of_cpc df row :
  NoDup (map keyword df) -> In row df ->
  matches row (frame_of_cpc df) =
  [{| keyword := keyword row; trends_score := None;
      cpc_usd := Some (get_cpc_from_ubersuggest (keyword row)) |}].
Proof.
  induction df as [|r df IH]; intros Hnd Hin; [contradiction|].
  simpl in Hnd. apply NoDup_cons_iff in Hnd as [Hnotin Hnd].
  assert (Hkeys : map keyword (frame_of_cpc df) = map keyword df).
  { unfold frame_of_cpc. rewrite map_map. reflexivity. }
  unfold matches in *. simpl.
  destruct Hin as [->|Hin].
  - rewrite String.eqb_refl. f_equal.
    apply (matches_absent row (frame_of_cpc df)). rewrite Hkeys. exact Hnotin.
  - destruct (String.eqb_spec (keyword r) (keyword row)) as [E|_].
    + exfalso. apply Hnotin. rewrite E. apply in_map. exact Hin.
    + apply IH; assumption.
Qed.

(** The merge of a frame without duplicate keyword with its own CPC frame. *)
Lemma merge_left_frame_of_cpc df :
  NoDup (map keyword df) ->
  merge_left df (frame_of_cpc df) =
  map (fun row => with_cost row (Some (get_cpc_from_ubersuggest (keyword row)))) df.
Proof.
  intros Hnd.
  assert (Hgen : forall l, incl l df ->
    merge_left l (frame_of_cpc df) =
    map (fun row => with_cost row (Some (get_cpc_from_ubersuggest (keyword row)))) l).
  { induction l as [|row l IH]; intros Hincl; [reflexivity|].
    unfold merge_left in *. cbn [flat_map map].
    rewrite (matches_frame_of_cpc df row Hnd) by (apply Hincl; left; reflexivity).
    cbn [map app cpc_usd]. f_equal. apply IH.
    intros x Hx. apply Hincl. right. exact Hx. }
  apply Hgen. apply incl_refl.
Qed.

Lemma merge_left_one_per_row left right :
  NoDup (map keyword right) ->
  map (fun row => (keyword row, trends_score row)) (merge_left left right) =
  map (fun row => (keyword row, trends_score row)) left.
Proof.
  intros Hnd. unfold merge_left.
  induction left as [|row left IH]; [reflexivity|].
  cbn [flat_map]. rewrite map_app, IH.
  destruct (matches_at_most_one row right Hnd) as [->|[r ->]]; reflexivity.
Qed.

Lemma merge_left_keywords left right kw :
  In kw (map keyword (merge_left left right)) -> In kw (map keyword left).
Proof.
  unfold merge_left. induction left as [|row left IH]; [intros []|].
  cbn [flat_map]. rewrite map_app, in_app_iff. intros [H|H].
  - left. destruct (matches row right) as [|r rs].
    + destruct H as [H|[]]. exact H.
    + apply in_map_iff in H as (x & <- & Hx).
      apply in_map_iff in Hx as (c & <- & _). reflexivity.
  - right. apply IH. exact H.
Qed.

Lemma filter_map_swap {A B : Type} (f : A -> B) (p : B -> bool) (l : list A) :
  filter p (map f l) = map f (filter (fun x => p (f x)) l).
Proof.
  induction l as [|x l IH]; [reflexivity|].
  simpl. destruct (p (f x)); simpl; rewrite IH; reflexivity.
Qed.

(** Filtering the fetched records keeps their keywords distinct. *)
Lemma kept_keywords_distinct (keep : Trends.TrendRecord -> bool)
    (trends_data : list Trends.TrendRecord) :
  NoDup (map Trends.keyword trends_data) ->
  NoDup (map Trends.keyword (filter keep trends_data)).
Proof.
  induction trends_data as [|r rs IH]; intros Hnd; [constructor|].
  cbn [map] in Hnd. apply NoDup_cons_iff in Hnd as [Hfresh Hrest].
  cbn [filter]. destruct (keep r); [|exact (IH Hrest)].
  cbn [map]. constructor; [|exact (IH Hrest)].
  intros Hin. apply Hfresh.
  apply in_map_iff in Hin as (r' & Hkey & Hin).
  apply filter_In in Hin as [Hin _].
  rewrite <- Hkey. apply in_map. exact Hin.
Qed.

(** [final_df] when [trends_df] has no duplicate keyword. *)
Lemma final_frame_of_trends_frame expanded_keywords trends_data min_score :
  NoDup (map keyword (trends_frame expanded_keywords trends_data min_score)) ->
  final_frame expanded_keywords trends_data min_score =
  map (fun row => with_cost row (Some (get_cpc_from_ubersuggest (keyword row))))
      (trends_frame expanded_keywords trends_data min_score).
Proof.
  intros Hnd. unfold final_frame, cpc_frame.
  destruct (trends_frame expanded_keywords trends_data min_score) as [|row df] eqn:E;
    [reflexivity|].
  cbn [empty negb andb frame_of_cpc map].
  change ({| keyword := keyword row; trends_score := None;
             cpc_usd := Some (get_cpc_from_ubersuggest (keyword row)) |}
          :: map (fun row0 => {| keyword := keyword row0; trends_score := None;
                                 cpc_usd := Some (get_cpc_from_ubersuggest (keyword row0)) |}) df)
    with (frame_of_cpc (row :: df)).
  apply merge_left_frame_of_cpc. exact Hnd.
Qed.

(** C1, as stated, fails.  When the fetch returned nothing the keywords of
    the input are kept but each gets the cost of the CPC stub; when the
    filter discards every fetched record the final frame has no row. *)
Lemma fallback_not_all_null :
  (exists row, In row (final_frame ["x"; "y"] [] 0%Q) /\ cpc_usd row <> None) /\
  final_frame ["x"; "y"]
    [{| Trends.keyword := "a"; Trends.trends_score := 30%Q |}] 50%Q = [] /\
  ~ (forall expanded_keywords trends_data min_score,
        filter (fun r => Qle_bool min_score (Trends.trends_score r)) trends_data = [] ->
        final_frame expanded_keywords trends_data min_score =
        frame_of_keywords expanded_keywords).
Proof.
  split; [|split].
  - eexists. split; [left; reflexivity|]. discriminate.
  - reflexivity.
  - intros H.
    specialize (H ["x"; "y"]
                  [{| Trends.keyword := "a"; Trends.trends_score := 30%Q |}]
                  50%Q eq_refl).
    vm_compute in H. discriminate.
Qed.

(** C1, amended.  Whenever no fetched record passes the filter the merge
    stage returns a frame.  If the fetch returned no record, and the input
    keywords are distinct, the frame has one row per input keyword, in
    order, with no score and with the cost that the CPC stub gives for the
    keyword.  If the fetch returned records and the filter discarded them
    all, the frame has no row. *)
Theorem fallback_keeps_keywords (expanded_keywords : list string)
    (trends_data : list Trends.TrendRecord) (min_score : Q) :
  filter (fun r => Qle_bool min_score (Trends.trends_score r)) trends_data = [] ->
  (trends_data = [] -> NoDup expanded_keywords ->
   final_frame expanded_keywords trends_data min_score =
   map (fun kw => {| keyword := kw;
                     trends_score := None;
                     cpc_usd := Some (get_cpc_from_ubersuggest kw) |})
       expanded_keywords) /\
  (trends_data <> [] ->
   final_frame expanded_keywords trends_data min_score = []).
Proof.
  intros Hfilter. split.
  - intros -> Hnd.
    rewrite final_frame_of_trends_frame.
    + unfold trends_frame, frame_of_keywords. rewrite map_map. reflexivity.
    + unfold trends_frame, frame_of_keywords. rewrite map_map. simpl.
      rewrite map_id. exact Hnd.
  - intros Hne. unfold final_frame.
    assert (E : trends_frame expanded_keywords trends_data min_score = []).
    { unfold trends_frame. destruct trends_data as [|r rs]; [contradiction|].
      unfold frame_of_trends. rewrite filter_map_swap.
      unfold score_ge. cbn [trends_score]. rewrite Hfilter. reflexivity. }
    rewrite E. reflexivity.
Qed.

Lemma fallback_keeps_keywords_witness :
  final_frame ["x"; "y z"] [] 0%Q =
  [{| keyword := "x"; trends_score := None;
      cpc_usd := Some (get_cpc_from_ubersuggest "x") |};
   {| keyword := "y z"; trends_score := None;
      cpc_usd := Some (get_cpc_from_ubersuggest "y z") |}].
Proof.
  apply (fallback_keeps_keywords ["x"; "y z"] [] 0%Q eq_refl); [reflexivity|].
  repeat constructor; simpl; intuition discriminate.
Defined.

(** C9.  When the fetch returned records with distinct keywords, the final
    frame has exactly one row per record that passes the filter, in order,
    with the keyword and score of that record and the cost found for it.
    The left join itself keeps exactly one row per row of the filtered
    frame, with its keyword and score, for any cost frame with at most one
    row per keyword, whether a cost row matches or not; and for any cost
    frame every keyword of the result is a keyword of the filtered frame. *)
Theorem merge_is_left_join (expanded_keywords : list string)
    (trends_data : list Trends.TrendRecord) (min_score : Q) :
  trends_data <> [] ->
  NoDup (map Trends.keyword trends_data) ->
  let kept :=
    filter (fun r => Qle_bool min_score (Trends.trends_score r)) trends_data in
  final_frame expanded_keywords trends_data min_score =
    map (fun r => {| keyword := Trends.keyword r;
                     trends_score := Some (Trends.trends_score r);
                     cpc_usd := Some (get_cpc_from_ubersuggest (Trends.keyword r)) |})
        kept /\
  (forall right,
      NoDup (map keyword right) ->
      map (fun row => (keyword row, trends_score row))
          (merge_left (frame_of_trends kept) right) =
      map (fun r => (Trends.keyword r, Some (Trends.trends_score r))) kept) /\
  (forall right kw,
      In kw (map keyword (merge_left (frame_of_trends kept) right)) ->
      In kw (map Trends.keyword kept)).
Proof.
  intros Hne Hnd kept.
  assert (Hframe : trends_frame expanded_keywords trends_data min_score =
                   frame_of_trends kept).
  { unfold trends_frame. destruct trends_data as [|r rs]; [contradiction|].
    unfold frame_of_trends. rewrite filter_map_swap. reflexivity. }
  assert (Hkeys : map keyword (frame_of_trends kept) = map Trends.keyword kept).
  { unfold frame_of_trends. rewrite map_map. reflexivity. }
  split; [|split].
  - rewrite final_frame_of_trends_frame.
    + rewrite Hframe. unfold frame_of_trends. rewrite map_map. reflexivity.
    + rewrite Hframe, Hkeys. apply kept_keywords_distinct. exact Hnd.
  - intros right Hright.
    rewrite (merge_left_one_per_row _ right Hright).
    unfold frame_of_trends. rewrite map_map. reflexivity.
  - intros right kw Hin. rewrite <- Hkeys.
    exact (merge_left_keywords _ right kw Hin).
Qed.

Lemma merge_is_left_join_witness :
  final_frame ["a"; "b"]
    [{| Trends.keyword := "a"; Trends.trends_score := 70%Q |};
     {| Trends.keyword := "b"; Trends.trends_score := 30%Q |}] 50%Q =
  [{| keyword := "a"; trends_score := Some 70%Q;
      cpc_usd := Some (get_cpc_from_ubersuggest "a") |}].
Proof.
  apply (merge_is_left_join ["a"; "b"]
           [{| Trends.keyword := "a"; Trends.trends_score := 70%Q |};
            {| Trends.keyword := "b"; Trends.trends_score := 30%Q |}] 50%Q).
  - discriminate.
  - repeat constructor; simpl; intuition discriminate.
Defined.

End MergerFacts.

(** * More on [batch]: positions and composition *)
Module BatcherExtra.
Import Batcher BatcherFacts.

Local Open Scope string_scope.
Local Open Scope Z_scope.
Local Open Scope list_scope.

Lemma batch_loop_nth {A : Type} (n : nat) : forall (j : nat) (it : list A),
  nth_error (batch_loop (S n) it) j =
  if (j * S n <? length it)%nat
  then Some (firstn (S n) (skipn (j * S n) it))
  else None.
Proof.
  induction j as [|j IH]; intros it.
  - destruct it as [|x it]; [rewrite batch_loop_nil; reflexivity|].
    rewrite batch_loop_cons. reflexivity.
  - destruct it as [|x it].
    + rewrite batch_loop_nil. simpl. reflexivity.
    + rewrite batch_loop_cons. cbn [nth_error]. rewrite IH.
      rewrite length_skipn, skipn_skipn.
      replace (j * S n + S n)%nat with (S j * S n)%nat by lia.
      destruct (Nat.ltb_spec (j * S n) (length (x :: it) - S n));
        destruct (Nat.ltb_spec (S j * S n) (length (x :: it)));
        try lia; reflexivity.
Qed.

Lemma batch_loop_app {A : Type} (n : nat) (b : list A) : forall (m : nat) (a : list A),
  length a = (m * S n)%nat ->
  batch_loop (S n) (a ++ b) = batch_loop (S n) a ++ batch_loop (S n) b.
Proof.
  induction m as [|m IH]; intros a Hlen.
  - apply length_zero_iff_nil in Hlen. subst a.
    rewrite batch_loop_nil. reflexivity.
  - destruct a as [|x a]; [discriminate|].
    change ((x :: a) ++ b) with (x :: (a ++ b)).
    rewrite !batch_loop_cons.
    change (x :: (a ++ b)) with ((x :: a) ++ b).
    rewrite firstn_app, skipn_app.
    replace (S n - length (x :: a))%nat with O by lia.
    cbn [firstn skipn]. rewrite app_nil_r.
    rewrite <- app_comm_cons. f_equal.
    apply IH. rewrite length_skipn. cbn [length] in Hlen. nia.
Qed.

Lemma batch_count {A : Type} (keywords : list A) (size : Z)
    (batches : list (list A)) :
  1 <= size ->
  batch keywords size = Ok batches ->
  Z.of_nat (length batches) = (Z.of_nat (length keywords) + size - 1) / size.
Proof.
  intros Hs Hb. rewrite (batch_of_valid_size keywords size Hs) in Hb.
  injection Hb as <-.
  pose proof (batch_loop_count (Z.to_nat (size - 1)) keywords) as [H1 H2].
  cbv zeta in H1, H2.
  set (k := length (batch_loop (S (Z.to_nat (size - 1))) keywords)) in *.
  assert (Hn : size = Z.of_nat (S (Z.to_nat (size - 1)))) by lia.
  revert Hn H1 H2. generalize (S (Z.to_nat (size - 1))). intros n -> H1 H2.
  apply Z.div_unique with
    (r := Z.of_nat (length keywords) + Z.of_nat n - 1 - Z.of_nat n * Z.of_nat k).
  - left. nia.
  - lia.
Qed.

(** X1.  For a size of at least 1, batch number [j] (from 0) is the slice
    [keywords[j*size : (j+1)*size]] of the input, and there is no batch [j]
    once [j * size] reaches the length of the input. *)
Theorem batch_is_slice (keywords : list string) (size : Z)
    (batches : list (list string)) (j : nat) :
  1 <= size ->
  batch keywords size = Ok batches ->
  nth_error batches j =
  if Z.of_nat j * size <? Z.of_nat (length keywords)
  then Some (firstn (Z.to_nat size) (skipn (j * Z.to_nat size) keywords))
  else None.
Proof.
  intros Hs Hb. rewrite (batch_of_valid_size keywords size Hs) in Hb.
  injection Hb as <-. rewrite batch_loop_nth.
  replace (S (Z.to_nat (size - 1))) with (Z.to_nat size) by lia.
  assert (Hn : size = Z.of_nat (Z.to_nat size)) by lia.
  revert Hn. generalize (Z.to_nat size). intros n ->.
  destruct (Nat.ltb_spec (j * n) (length keywords));
    destruct (Z.ltb_spec (Z.of_nat j * Z.of_nat n) (Z.of_nat (length keywords)));
    try reflexivity; nia.
Qed.

Lemma batch_is_slice_witness :
  nth_error [["p"; "q"]; ["r"; "s"]; ["t"]] 1 = Some ["r"; "s"].
Proof.
  apply (batch_is_slice ["p"; "q"; "r"; "s"; "t"] 2 _ 1 ltac:(lia) eq_refl).
Defined.

(** X2.  For a size of at least 1, when the length of [front] is a multiple
    of the size, batching [front ++ back] gives the batches of [front]
    followed by the batches of [back]. *)
Theorem batch_app (front back : list string) (size : Z) (m : nat) :
  1 <= size ->
  Z.of_nat (length front) = Z.of_nat m * size ->
  exists batches_front batches_back,
    batch front size = Ok batches_front /\
    batch back size = Ok batches_back /\
    batch (front ++ back) size = Ok (batches_front ++ batches_back).
Proof.
  intros Hs Hlen.
  rewrite !(batch_of_valid_size _ size Hs).
  eexists. eexists. split; [reflexivity|]. split; [reflexivity|].
  f_equal. apply (batch_loop_app _ back m).
  replace (S (Z.to_nat (size - 1))) with (Z.to_nat size) by lia.
  assert (Hn : size = Z.of_nat (Z.to_nat size)) by lia.
  revert Hn Hlen. generalize (Z.to_nat size). intros n -> Hlen. nia.
Qed.

Lemma batch_app_witness :
  batch (["p"; "q"; "r"; "s"] ++ ["t"]) 2 =
  Ok ([["p"; "q"]; ["r"; "s"]] ++ [["t"]]).
Proof.
  destruct (batch_app ["p"; "q"; "r"; "s"] ["t"] 2 2 ltac:(lia) eq_refl)
    as (bf & bb & Hf & Hb & Hfb).
  vm_compute in Hf, Hb. injection Hf as <-. injection Hb as <-. exact Hfb.
Defined.

End BatcherExtra.

(** * More on [fetch_google_trends]: what holds for every parameter value *)
Module TrendsExtra.
Import Trends Effects TrendsFacts.

Local Open Scope string_scope.
Local Open Scope Z_scope.
Local Open Scope list_scope.

Lemma requests_app (tr1 tr2 : list Event) :
  requests (tr1 ++ tr2) = requests tr1 ++ requests tr2.
Proof. apply filter_app. Qed.

Lemma seconds_slept_app (tr1 tr2 : list Event) :
  seconds_slept (tr1 ++ tr2) = seconds_slept tr1 + seconds_slept tr2.
Proof.
  induction tr1 as [|e tr1 IH]; [reflexivity|].
  cbn [app seconds_slept fold_right] in *. fold (seconds_slept (tr1 ++ tr2)).
  fold (seconds_slept tr1). lia.
Qed.

Section Invariants.
Variable pytrends : Z -> Z -> list string -> string -> Response.
Variables (geo : string) (retries backoff delay : Z).

Local Abbreviation try_body := (try_body pytrends geo delay).
Local Abbreviation attempt_loop := (attempt_loop pytrends geo retries backoff delay).
Local Abbreviation for_batches := (for_batches pytrends geo retries backoff delay).
Local Abbreviation fetched_from := (fetched_from pytrends geo).

(** One [try] body: it logs its request, then at most the delay sleep, and
    every record it adds comes from the frame it got. *)
Lemma try_body_effects i attempt kw_batch st :
  exists recs evs,
    snd (try_body i attempt kw_batch st) =
      {| trends_data := trends_data st ++ recs;
         trace := trace st ++ Request i attempt kw_batch geo :: evs |} /\
    Forall (fetched_from i kw_batch) recs /\
    (evs = [] \/ evs = [SleepDelay delay]).
Proof.
  unfold Trends.try_body.
  destruct (pytrends i attempt kw_batch geo) as [|data] eqn:Hp.
  - exists [], []. rewrite app_nil_r. repeat split; auto.
  - destruct (empty data) eqn:He.
    + exists [], []. rewrite app_nil_r. repeat split; auto.
    + rewrite collect_records. unfold sleep.
      assert (Hfrom : Forall (fetched_from i kw_batch)
                        (records_of (drop_isPartial data) kw_batch)).
      { apply Forall_forall. intros r Hr. exists attempt, data. auto. }
      destruct (delay <? 0); simpl.
      * exists (records_of (drop_isPartial data) kw_batch), [].
        repeat split; auto.
      * exists (records_of (drop_isPartial data) kw_batch), [SleepDelay delay].
        unfold log. simpl. rewrite <- app_assoc. repeat split; auto.
Qed.

(** The [while] loop of a batch, whatever the parameters. *)
Lemma attempt_loop_effects i kw_batch (fuel : nat) : forall attempt st,
  0 <= attempt ->
  fuel = Z.to_nat (retries - attempt) ->
  exists recs evs,
    snd (attempt_loop i kw_batch attempt st) =
      {| trends_data := trends_data st ++ recs;
         trace := trace st ++ evs |} /\
    Forall (fetched_from i kw_batch) recs /\
    (forall i' a kws g,
        In (Request i' a kws g) evs ->
        i' = i /\ kws = kw_batch /\ g = geo /\ attempt <= a < retries) /\
    (length (requests evs) <= fuel)%nat /\
    (0 <= backoff -> fst (attempt_loop i kw_batch attempt st) = Normal).
Proof.
  induction fuel as [|fuel IH]; intros attempt st Ha Hfuel;
    rewrite attempt_loop_unfold;
    destruct (Z.ltb_spec attempt retries) as [Hlt|Hge]; try lia.
  - exists [], []. rewrite !app_nil_r, run_eta.
    split; [reflexivity|]. split; [constructor|].
    split; [intros i' a kws g []|]. split; [simpl; lia|]. reflexivity.
  - destruct (try_body_effects i attempt kw_batch st) as (r1 & e1 & Hst & Hr1 & He1).
    assert (Hreq1 : forall i' a kws g,
               In (Request i' a kws g) (Request i attempt kw_batch geo :: e1) ->
               i' = i /\ kws = kw_batch /\ g = geo /\ attempt <= a < retries).
    { intros i' a kws g [H|H].
      - injection H as <- <- <- <-. repeat split; auto; lia.
      - destruct He1 as [-> | ->]; [destruct H|].
        destruct H as [H|[]]. discriminate. }
    assert (Hcount1 : length (requests (Request i attempt kw_batch geo :: e1)) = 1%nat).
    { destruct He1 as [-> | ->]; reflexivity. }
    destruct (try_body i attempt kw_batch st) as [[|e] st1]; simpl in Hst.
    + exists r1, (Request i attempt kw_batch geo :: e1).
      split; [exact Hst|]. split; [exact Hr1|]. split; [exact Hreq1|].
      split; [rewrite Hcount1; lia|]. reflexivity.
    + destruct (Z.ltb_spec (attempt + 1) retries) as [Hnext|Hlast].
      * unfold sleep.
        destruct (Z.ltb_spec (backoff * (attempt + 1)) 0) as [Hneg|Hpos].
        -- exists r1, (Request i attempt kw_batch geo :: e1).
           split; [exact Hst|]. split; [exact Hr1|]. split; [exact Hreq1|].
           split; [rewrite Hcount1; lia|]. intros Hb. nia.
        -- destruct (IH (attempt + 1)
                        (log (SleepBackoff (backoff * (attempt + 1))) st1)
                        ltac:(lia) ltac:(lia))
             as (r2 & e2 & Hst2 & Hr2 & Hreq2 & Hcount2 & Hok2).
           exists (r1 ++ r2),
             (Request i attempt kw_batch geo :: e1
              ++ SleepBackoff (backoff * (attempt + 1)) :: e2).
           split; [|split; [|split; [|split]]].
           ++ rewrite Hst2. unfold log. rewrite Hst. simpl.
              rewrite <- !app_assoc. reflexivity.
           ++ apply Forall_app. split; assumption.
           ++ intros i' a kws g Hin.
              change (Request i attempt kw_batch geo :: e1
                      ++ SleepBackoff (backoff * (attempt + 1)) :: e2)
                with ((Request i attempt kw_batch geo :: e1)
                      ++ SleepBackoff (backoff * (attempt + 1)) :: e2) in Hin.
              apply in_app_or in Hin as [Hin|[Hin|Hin]].
              ** apply Hreq1. exact Hin.
              ** discriminate.
              ** destruct (Hreq2 _ _ _ _ Hin) as (? & ? & ? & ?).
                 repeat split; auto; lia.
           ++ change (Request i attempt kw_batch geo :: e1
                      ++ SleepBackoff (backoff * (attempt + 1)) :: e2)
                with ((Request i attempt kw_batch geo :: e1)
                      ++ [SleepBackoff (backoff * (attempt + 1))] ++ e2).
              rewrite !requests_app, !length_app, Hcount1. simpl. lia.
           ++ exact Hok2.
      * exists r1, (Request i attempt kw_batch geo :: e1).
        split; [exact Hst|]. split; [exact Hr1|]. split; [exact Hreq1|].
        split; [rewrite Hcount1; lia|]. reflexivity.
Qed.

(** The [for] loop over the numbered batches, whatever the parameters. *)
Lemma for_batches_effects numbered : forall st,
  exists recs evs,
    snd (for_batches numbered st) =
      {| trends_data := trends_data st ++ recs;
         trace := trace st ++ evs |} /\
    (forall r, In r recs ->
               exists i kw_batch, In (i, kw_batch) numbered /\
                                  fetched_from i kw_batch r) /\
    (forall i a kws g,
        In (Request i a kws g) evs ->
        In (i, kws) numbered /\ g = geo /\ 0 <= a < retries) /\
    (length (requests evs) <= Z.to_nat retries * length numbered)%nat /\
    (0 <= backoff -> fst (for_batches numbered st) = Normal).
Proof.
  induction numbered as [|[i kw_batch] numbered IH]; intros st.
  - exists [], []. simpl. rewrite !app_nil_r, run_eta.
    split; [reflexivity|]. split; [intros r []|].
    split; [intros i a kws g []|]. split; [lia|]. reflexivity.
  - cbn [Trends.for_batches].
    destruct (attempt_loop_effects i kw_batch (Z.to_nat retries) 0 st
                ltac:(lia) ltac:(f_equal; lia))
      as (r1 & e1 & Hst1 & Hr1 & Hreq1 & Hcount1 & Hok1).
    destruct (attempt_loop i kw_batch 0 st) as [[|e] st1]; simpl in Hst1.
    + destruct (IH st1) as (r2 & e2 & Hst2 & Hr2 & Hreq2 & Hcount2 & Hok2).
      exists (r1 ++ r2), (e1 ++ e2).
      split; [|split; [|split; [|split]]].
      * rewrite Hst2, Hst1. simpl. rewrite <- !app_assoc. reflexivity.
      * intros r Hin. apply in_app_or in Hin as [Hin|Hin].
        -- exists i, kw_batch. split; [left; reflexivity|].
           rewrite Forall_forall in Hr1. apply Hr1. exact Hin.
        -- destruct (Hr2 r Hin) as (i' & b' & Hin' & Hfrom).
           exists i', b'. split; [right; exact Hin'|exact Hfrom].
      * intros i' a kws g Hin. apply in_app_or in Hin as [Hin|Hin].
        -- destruct (Hreq1 _ _ _ _ Hin) as (-> & -> & -> & Hrange).
           split; [left; reflexivity|]. split; [reflexivity|lia].
        -- destruct (Hreq2 _ _ _ _ Hin) as (Hin' & Hg & Hrange).
           split; [right; exact Hin'|]. split; assumption.
      * rewrite requests_app, length_app. cbn [length]. lia.
      * exact Hok2.
    + exists r1, e1. split; [exact Hst1|]. split; [|split; [|split]].
      * intros r Hin. exists i, kw_batch. split; [left; reflexivity|].
        rewrite Forall_forall in Hr1. apply Hr1. exact Hin.
      * intros i' a kws g Hin.
        destruct (Hreq1 _ _ _ _ Hin) as (-> & -> & -> & Hrange).
        split; [left; reflexivity|]. split; [reflexivity|lia].
      * cbn [length]. lia.
      * intros Hb. specialize (Hok1 Hb). discriminate.
Qed.
End Invariants.


Lemma enumerate_length {A : Type} (bs : list A) : forall start_,
  length (enumerate bs start_) = length bs.
Proof.
  induction bs as [|b bs IH]; intros start_; [reflexivity|].
  simpl. rewrite IH. reflexivity.
Qed.

(** The keywords with a record: series columns of the frame, the marker
    label excluded. *)
Lemma has_column_drop_isPartial (data : DataFrame) (kw : string) :
  has_column kw (drop_isPartial data) = true <->
  In kw (columns data) /\ kw <> "isPartial".
Proof.
  unfold drop_isPartial, has_column.
  destruct (in_dec string_dec "isPartial" (columns data)) as [Hin|Hout].
  - unfold drop. cbn [columns].
    destruct (in_dec string_dec kw
                (filter (fun c => negb (String.eqb c "isPartial")) (columns data)))
      as [H|H]; rewrite filter_In in H.
    + split; [intros _|reflexivity]. destruct H as [Hkw Hne].
      split; [exact Hkw|]. intros ->. rewrite String.eqb_refl in Hne. discriminate.
    + split; [discriminate|]. intros [Hkw Hne]. exfalso. apply H.
      split; [exact Hkw|]. apply negb_true_iff. apply String.eqb_neq. exact Hne.
  - destruct (in_dec string_dec kw (columns data)) as [H|H].
    + split; [intros _|reflexivity]. split; [exact H|].
      intros ->. contradiction.
    + split; [discriminate|]. intros [Hkw _]. contradiction.
Qed.

Lemma records_of_In (data : DataFrame) (kw_batch : list string) (r : TrendRecord) :
  In r (records_of data kw_batch) <->
  In (keyword r) kw_batch /\ has_column (keyword r) data = true /\
  r = {| keyword := keyword r; trends_score := mean (series data (keyword r)) |}.
Proof.
  unfold records_of. rewrite in_map_iff. split.
  - intros (kw & <- & Hin). apply filter_In in Hin as [Hin Hcol].
    repeat split; assumption.
  - intros (Hin & Hcol & Hr). exists (keyword r). split; [symmetry; exact Hr|].
    apply filter_In. split; assumption.
Qed.

(** The mean of a series that is not empty lies between any bounds of its
    cells. *)
Lemma mean_bounds (lo hi : Z) (xs : list Z) :
  xs <> [] ->
  Forall (fun x => lo <= x <= hi) xs ->
  (inject_Z lo <= mean xs <= inject_Z hi)%Q.
Proof.
  intros Hne Hall.
  assert (Hsum : lo * Z.of_nat (length xs) <= sum xs <= hi * Z.of_nat (length xs)).
  { clear Hne. induction Hall as [|x xs Hx _ IH]; [simpl; lia|].
    cbn [sum fold_right length] in *. fold (sum xs). nia. }
  assert (Hlen : 0 < Z.of_nat (length xs)).
  { destruct xs; [contradiction|simpl; lia]. }
  assert (HlenQ : (0 < inject_Z (Z.of_nat (length xs)))%Q).
  { change 0%Q with (inject_Z 0). rewrite <- Zlt_Qlt. exact Hlen. }
  unfold mean. split.
  - apply Qle_shift_div_l; [exact HlenQ|].
    rewrite <- inject_Z_mult, <- Zle_Qle. lia.
  - apply Qle_shift_div_r; [exact HlenQ|].
    rewrite <- inject_Z_mult, <- Zle_Qle. lia.
Qed.

Section General.
Variable pytrends : Z -> Z -> list string -> string -> Response.
Variables (geo : string) (retries backoff delay : Z).

Local Abbreviation for_batches := (for_batches pytrends geo retries backoff delay).
Local Abbreviation fetch_google_trends :=
  (fetch_google_trends pytrends geo retries backoff delay).
Local Abbreviation fetched_from := (fetched_from pytrends geo).

(** The fetch in terms of its [for] loop, for a valid batch size. *)
Lemma fetch_as_loop (keywords : list string) (batch_size : Z) :
  1 <= batch_size ->
  exists batches,
    Batcher.batch keywords batch_size = Ok batches /\
    snd (fetch_google_trends keywords batch_size) =
      trace (snd (for_batches (enumerate batches 1) start)) /\
    fst (fetch_google_trends keywords batch_size) =
      match fst (for_batches (enumerate batches 1) start) with
      | Normal => Ok (trends_data (snd (for_batches (enumerate batches 1) start)))
      | Raised e => Raise e
      end.
Proof.
  intros Hs.
  pose proof (BatcherFacts.batch_of_valid_size keywords batch_size Hs) as Hb.
  eexists. split; [exact Hb|].
  unfold Trends.fetch_google_trends, total_batches.
  destruct (Z.eqb_spec batch_size 0); [lia|]. rewrite Hb.
  destruct (for_batches _ start) as [[|e] st]; split; reflexivity.
Qed.

(** A fetch that returns had a valid batch size. *)
Lemma fetch_ok_size (keywords : list string) (batch_size : Z) records tr :
  fetch_google_trends keywords batch_size = (Ok records, tr) ->
  0 <= batch_size.
Proof.
  unfold Trends.fetch_google_trends, total_batches, Batcher.batch.
  destruct (Z.eqb_spec batch_size 0); [lia|].
  destruct (Z.ltb_spec batch_size 0); [discriminate|lia].
Qed.

(** X3.  For a valid batch size, whatever the provider answers and whatever
    the other parameters are, the fetch makes at most [retries] provider
    requests per batch, so at most [retries * ceil(len(keywords) /
    batch_size)] in all (none when [retries] is negative). *)
Theorem fetch_requests_bounded (keywords : list string) (batch_size : Z) :
  1 <= batch_size ->
  Z.of_nat (length (requests (snd (fetch_google_trends keywords batch_size))))
  <= Z.max 0 retries
     * ((Z.of_nat (length keywords) + batch_size - 1) / batch_size).
Proof.
  intros Hs.
  destruct (fetch_as_loop keywords batch_size Hs) as (batches & Hb & Htr & _).
  rewrite Htr, <- (BatcherExtra.batch_count keywords batch_size batches Hs Hb).
  destruct (for_batches_effects pytrends geo retries backoff delay
              (enumerate batches 1) start)
    as (recs & evs & Hst & _ & _ & Hcount & _).
  rewrite Hst. cbn [trace start app]. rewrite enumerate_length in Hcount. nia.
Qed.


(** X4.  For a valid batch size, whatever the provider answers and whatever
    the other parameters are, every provider request of the run is made
    with the configured [geo], with the attempt counter between 0 and
    [retries - 1], for a batch number [i] from 1, and asks exactly for the
    slice [keywords[(i-1)*batch_size : i*batch_size]], which holds between
    1 and [batch_size] keywords. *)
Theorem fetch_requests_are_batches (keywords : list string) (batch_size : Z)
    (i attempt : Z) (kw_list : list string) (g : string) :
  1 <= batch_size ->
  In (Request i attempt kw_list g)
     (snd (fetch_google_trends keywords batch_size)) ->
  g = geo /\
  0 <= attempt < retries /\
  1 <= i /\
  kw_list = firstn (Z.to_nat batch_size)
                   (skipn (Z.to_nat (i - 1) * Z.to_nat batch_size) keywords) /\
  1 <= Z.of_nat (length kw_list) <= batch_size.
Proof.
  intros Hs Hin.
  destruct (fetch_as_loop keywords batch_size Hs) as (batches & Hb & Htr & _).
  rewrite Htr in Hin.
  destruct (for_batches_effects pytrends geo retries backoff delay
              (enumerate batches 1) start)
    as (recs & evs & Hst & _ & Hreq & _ & _).
  rewrite Hst in Hin. cbn [trace start app] in Hin.
  destruct (Hreq _ _ _ _ Hin) as (Hnum & -> & Hrange).
  apply enumerate_In in Hnum as (j & -> & Hj).
  split; [reflexivity|]. split; [exact Hrange|]. split; [lia|].
  rewrite (BatcherFacts.batch_of_valid_size keywords batch_size Hs) in Hb.
  injection Hb as <-.
  pose proof (BatcherFacts.batch_loop_bounds (Z.to_nat (batch_size - 1)) keywords)
    as Hbounds.
  rewrite Forall_forall in Hbounds.
  specialize (Hbounds kw_list (nth_error_In _ _ Hj)).
  rewrite BatcherExtra.batch_loop_nth in Hj.
  replace (S (Z.to_nat (batch_size - 1))) with (Z.to_nat batch_size) in * by lia.
  replace (Z.to_nat (1 + Z.of_nat j - 1)) with j by lia.
  destruct (j * Z.to_nat batch_size <? length keywords)%nat; [|discriminate].
  injection Hj as <-. split; [reflexivity|]. lia.
Qed.

(** X5.  Whatever the parameters, every record that the fetch returns
    carries an input keyword, other than the marker label [isPartial], and
    was made of a frame, not empty, that the provider returned for a batch
    holding that keyword: the keyword is a column of that frame and the
    score is the mean of that column. *)
Theorem fetch_records_provenance (keywords : list string) (batch_size : Z)
    (records : list TrendRecord) (tr : list Event) (r : TrendRecord) :
  fetch_google_trends keywords batch_size = (Ok records, tr) ->
  In r records ->
  In (keyword r) keywords /\
  keyword r <> "isPartial" /\
  exists i attempt kw_batch data,
    pytrends i attempt kw_batch geo = Returns data /\
    empty data = false /\
    In (keyword r) kw_batch /\
    In (keyword r) (columns data) /\
    trends_score r = mean (series data (keyword r)).
Proof.
  intros Hrun Hin.
  assert (Hs : 1 <= batch_size).
  { pose proof (fetch_ok_size keywords batch_size records tr Hrun) as H0.
    unfold Trends.fetch_google_trends, total_batches in Hrun.
    destruct (Z.eqb_spec batch_size 0); [discriminate|lia]. }
  destruct (fetch_as_loop keywords batch_size Hs) as (batches & Hb & _ & Hres).
  rewrite Hrun in Hres. cbn [fst] in Hres.
  destruct (for_batches_effects pytrends geo retries backoff delay
              (enumerate batches 1) start)
    as (recs & evs & Hst & Hrecs & _ & _ & _).
  destruct (fst (for_batches (enumerate batches 1) start)); [|discriminate].
  injection Hres as ->. rewrite Hst in Hin. cbn [trends_data start app] in Hin.
  destruct (Hrecs r Hin) as (i & kw_batch & Hnum & a & data & Hp & He & Hr).
  apply records_of_In in Hr as (Hkw & Hcol & Hscore).
  apply has_column_drop_isPartial in Hcol as [Hcol Hne].
  apply enumerate_In in Hnum as (j & _ & Hj).
  split; [|split; [exact Hne|]].
  - rewrite <- (BatcherFacts.batch_split_concat keywords batch_size batches Hs Hb).
    apply in_concat. exists kw_batch. split; [|exact Hkw].
    exact (nth_error_In _ _ Hj).
  - exists i, a, kw_batch, data.
    repeat split; try assumption.
    rewrite Hscore at 1. cbn [trends_score].
    rewrite series_drop_isPartial. reflexivity.
Qed.

(** X6.  Whatever the parameters, when every cell under a series column of
    every frame that the provider returns lies between [lo] and [hi], so
    does the score of every record that the fetch returns. *)
Theorem fetch_scores_bounded (lo hi : Z) (keywords : list string)
    (batch_size : Z) (records : list TrendRecord) (tr : list Event)
    (r : TrendRecord) :
  (forall i attempt kw_batch data row kw,
      pytrends i attempt kw_batch geo = Returns data ->
      In row (rows data) -> In kw (columns data) ->
      lo <= row kw <= hi) ->
  fetch_google_trends keywords batch_size = (Ok records, tr) ->
  In r records ->
  (inject_Z lo <= trends_score r <= inject_Z hi)%Q.
Proof.
  intros Hcells Hrun Hin.
  assert (Hs : 1 <= batch_size).
  { pose proof (fetch_ok_size keywords batch_size records tr Hrun) as H0.
    unfold Trends.fetch_google_trends, total_batches in Hrun.
    destruct (Z.eqb_spec batch_size 0); [discriminate|lia]. }
  destruct (fetch_as_loop keywords batch_size Hs) as (batches & Hb & _ & Hres).
  rewrite Hrun in Hres. cbn [fst] in Hres.
  destruct (for_batches_effects pytrends geo retries backoff delay
              (enumerate batches 1) start)
    as (recs & evs & Hst & Hrecs & _ & _ & _).
  destruct (fst (for_batches (enumerate batches 1) start)); [|discriminate].
  injection Hres as ->. rewrite Hst in Hin. cbn [trends_data start app] in Hin.
  destruct (Hrecs r Hin) as (i & kw_batch & _ & a & data & Hp & He & Hr).
  apply records_of_In in Hr as (_ & Hcol & Hscore).
  apply has_column_drop_isPartial in Hcol as [Hcol _].
  rewrite Hscore. cbn [trends_score]. rewrite series_drop_isPartial.
  apply mean_bounds.
  - unfold series, empty in *.
    destruct (columns data); [discriminate|].
    destruct (rows data); [discriminate|]. discriminate.
  - unfold series. apply Forall_forall. intros x Hx.
    apply in_map_iff in Hx as (row & <- & Hrow).
    exact (Hcells i a kw_batch data row (keyword r) Hp Hrow Hcol).
Qed.

(** For a valid batch size and a non-negative backoff the loops never
    raise, whatever the provider answers and whatever [retries] and
    [delay] are. *)
Lemma fetch_body_returns (keywords : list string) (batch_size : Z) :
  1 <= batch_size -> 0 <= backoff ->
  exists records tr,
    fetch_google_trends keywords batch_size = (Ok records, tr).
Proof.
  intros Hs Hb.
  destruct (fetch_as_loop keywords batch_size Hs) as (batches & _ & _ & Hres).
  destruct (for_batches_effects pytrends geo retries backoff delay
              (enumerate batches 1) start)
    as (_ & _ & _ & _ & _ & _ & Hok).
  rewrite (Hok Hb) in Hres.
  destruct (fetch_google_trends keywords batch_size) as [res tr].
  cbn [fst] in Hres. subst res. eexists. eexists. reflexivity.
Qed.
End General.

(** X7.  For a valid batch size and a non-negative backoff, a call of
    [fetch_google_trends] raises only when line 114 cannot build the
    client, and then it raises that exception before any request; once the
    client is built the call returns a list of records, whatever the
    client answers and whatever [retries] and [delay] are. *)
Theorem fetch_raises_only_at_construction
    (TrendReq : result (Z -> Z -> list string -> string -> Response))
    (geo : string) (retries backoff delay : Z)
    (keywords : list string) (batch_size : Z) :
  1 <= batch_size -> 0 <= backoff ->
  match TrendReq with
  | Ok _ =>
      exists records tr,
        fetch_google_trends_call TrendReq geo retries backoff delay
          keywords batch_size = (Ok records, tr)
  | Raise e =>
      fetch_google_trends_call TrendReq geo retries backoff delay
        keywords batch_size = (Raise e, [])
  end.
Proof.
  intros Hs Hb. destruct TrendReq as [pytrends|e].
  - unfold fetch_google_trends_call.
    exact (fetch_body_returns pytrends geo retries backoff delay
             keywords batch_size Hs Hb).
  - reflexivity.
Qed.


Lemma fetch_requests_bounded_witness :
  Z.of_nat (length (requests (snd (Trends.fetch_google_trends
                                     Scenario.flaky "IN" 3 5 15 Scenario.keywords 2))))
  <= Z.max 0 3 * ((Z.of_nat (length Scenario.keywords) + 2 - 1) / 2).
Proof.
  apply (fetch_requests_bounded Scenario.flaky "IN" 3 5 15 Scenario.keywords 2). lia.
Defined.

Lemma fetch_requests_are_batches_witness :
  "IN" = "IN" /\ 0 <= 2 < 3 /\ 1 <= 2 /\
  ["r"; "s"] = firstn (Z.to_nat 2)
                 (skipn (Z.to_nat (2 - 1) * Z.to_nat 2) Scenario.keywords) /\
  1 <= Z.of_nat (length ["r"; "s"]) <= 2.
Proof.
  apply (fetch_requests_are_batches Scenario.flaky "IN" 3 5 15
           Scenario.keywords 2 2 2 ["r"; "s"] "IN"); [lia|].
  vm_compute. tauto.
Defined.

Lemma fetch_records_provenance_witness :
  In "p" ["p"; "q"] /\ "p" <> "isPartial".
Proof.
  destruct (fetch_records_provenance Scenario.reliable "IN" 3 5 15
              ["p"; "q"] 2 _ _
              {| keyword := "p"; trends_score := mean [40; 60] |} eq_refl)
    as (Hin & Hne & _).
  - left. reflexivity.
  - split; assumption.
Defined.

Lemma fetch_scores_bounded_witness :
  (inject_Z 0 <= mean [40; 60]%Z <= inject_Z 100)%Q.
Proof.
  eapply (fetch_scores_bounded Scenario.reliable "IN" 3 5 15 0 100
            ["p"; "q"] 2 _ _
            {| keyword := "p"; trends_score := mean [40; 60] |}).
  - intros i attempt kw_batch data row kw Hp Hrow _.
    injection Hp as <-. destruct Hrow as [<-|[<-|[]]]; lia.
  - vm_compute. reflexivity.
  - left. reflexivity.
Defined.

Lemma fetch_raises_only_at_construction_witness :
  exists records tr,
    fetch_google_trends_call (Ok Scenario.flaky) "IN" 3 5 (-1)
      Scenario.keywords 2 = (Ok records, tr).
Proof.
  apply (fetch_raises_only_at_construction (Ok Scenario.flaky) "IN" 3 5 (-1)
           Scenario.keywords 2); lia.
Defined.


(** ** Order of the output, sleeping time, negative sleeps *)

Lemma subsequence_refl {A : Type} (l : list A) : subsequence l l.
Proof. induction l; constructor; assumption. Qed.

Lemma subsequence_filter {A : Type} (p : A -> bool) (l : list A) :
  subsequence (filter p l) l.
Proof.
  induction l as [|x l IH]; [constructor|].
  simpl. destruct (p x); constructor; exact IH.
Qed.

Lemma subsequence_app {A : Type} (s1 l1 s2 l2 : list A) :
  subsequence s1 l1 -> subsequence s2 l2 -> subsequence (s1 ++ s2) (l1 ++ l2).
Proof.
  intros H1 H2. induction H1; simpl; try constructor; assumption.
Qed.

Lemma subsequence_In {A : Type} (s l : list A) (x : A) :
  subsequence s l -> In x s -> In x l.
Proof.
  intros H. induction H as [|y s l _ IH|y s l _ IH]; intros Hin.
  - exact Hin.
  - destruct Hin as [->|Hin]; [left; reflexivity|right; exact (IH Hin)].
  - right. exact (IH Hin).
Qed.

Lemma subsequence_NoDup {A : Type} (s l : list A) :
  subsequence s l -> NoDup l -> NoDup s.
Proof.
  intros H. induction H as [|y s l Hsub IH|y s l _ IH]; intros Hnd.
  - constructor.
  - apply NoDup_cons_iff in Hnd as [Hfresh Hnd]. constructor.
    + intros Hin. apply Hfresh. exact (subsequence_In s l y Hsub Hin).
    + exact (IH Hnd).
  - apply NoDup_cons_iff in Hnd as [_ Hnd]. exact (IH Hnd).
Qed.

Section Order.
Variable pytrends : Z -> Z -> list string -> string -> Response.
Variables (geo : string) (retries backoff delay : Z).

Local Abbreviation attempt_loop := (attempt_loop pytrends geo retries backoff delay).
Local Abbreviation fetch_google_trends :=
  (fetch_google_trends pytrends geo retries backoff delay).
Local Abbreviation batch_records := (batch_records pytrends geo retries).
Local Abbreviation batch_trace := (batch_trace pytrends geo retries backoff delay).
Local Abbreviation retry_trace := (retry_trace geo backoff).
Local Abbreviation records_at := (records_at pytrends geo).

Lemma batch_records_subsequence (i : Z) (kw_batch : list string) :
  subsequence (map keyword (batch_records (i, kw_batch))) kw_batch.
Proof.
  unfold Trends.batch_records, records_from.
  destruct (first_success pytrends geo retries i kw_batch) as [[k data]|].
  - unfold records_of. rewrite map_map. cbn [keyword]. rewrite map_id.
    apply subsequence_filter.
  - clear. induction kw_batch; constructor; assumption.
Qed.

Lemma batches_records_subsequence (batches : list (list string)) : forall start_,
  subsequence (map keyword (concat (map batch_records (enumerate batches start_))))
              (concat batches).
Proof.
  induction batches as [|b bs IH]; intros start_; [constructor|].
  cbn [enumerate map concat]. rewrite map_app.
  apply subsequence_app; [apply batch_records_subsequence|apply IH].
Qed.

Lemma fetch_records_order (keywords : list string) (batch_size : Z)
    (records : list TrendRecord) (tr : list Event) :
  1 <= batch_size -> 0 <= delay -> 0 <= backoff ->
  fetch_google_trends keywords batch_size = (Ok records, tr) ->
  subsequence (map keyword records) keywords.
Proof.
  intros Hs Hd Hb Hrun.
  destruct (fetch_run pytrends geo retries backoff delay keywords batch_size
              Hs Hd Hb) as (batches & Hbatch & Hrun').
  rewrite Hrun in Hrun'. injection Hrun' as -> _.
  rewrite <- (BatcherFacts.batch_split_concat keywords batch_size batches Hs Hbatch).
  apply batches_records_subsequence.
Qed.

(** X8.  For a valid batch size and non-negative sleeps, the keywords of
    the records that the fetch returns are the input keywords with some
    left out, in input order; so distinct input keywords give records with
    distinct keywords. *)
Theorem fetch_keeps_order (keywords : list string) (batch_size : Z)
    (records : list TrendRecord) (tr : list Event) :
  1 <= batch_size -> 0 <= delay -> 0 <= backoff ->
  fetch_google_trends keywords batch_size = (Ok records, tr) ->
  subsequence (map keyword records) keywords /\
  (NoDup keywords -> NoDup (map keyword records)).
Proof.
  intros Hs Hd Hb Hrun.
  pose proof (fetch_records_order keywords batch_size records tr Hs Hd Hb Hrun)
    as Hsub.
  split; [exact Hsub|]. intros Hnd. exact (subsequence_NoDup _ _ Hsub Hnd).
Qed.

Lemma seconds_retry_trace (i : Z) (kw_batch : list string) (n : nat) :
  2 * seconds_slept (retry_trace i kw_batch 0 (Z.of_nat n))
  = backoff * Z.of_nat n * (Z.of_nat n + 1).
Proof.
  induction n as [|n IH].
  - rewrite retry_trace_nil by lia. simpl. lia.
  - replace (Z.of_nat (S n)) with (Z.of_nat n + 1) by lia.
    rewrite retry_trace_snoc by lia.
    rewrite seconds_slept_app. cbn [seconds_slept fold_right seconds]. nia.
Qed.

(** X9.  For non-negative sleeps, the time that the loop of one batch
    spends sleeping: [backoff * k * (k + 1) / 2 + delay] when its attempt
    number [k + 1] (counter at [k]) is the first to get a frame that is not
    empty, and [backoff * retries * (retries - 1) / 2] when all of its
    [retries >= 1] attempts fail. *)
Theorem batch_sleeping_time (i : Z) (kw_batch : list string) (st : Run) :
  0 <= delay -> 0 <= backoff ->
  exists evs,
    trace (snd (attempt_loop i kw_batch 0 st)) = trace st ++ evs /\
    (forall k data,
        0 <= k < retries ->
        (forall a, 0 <= a < k -> failed (pytrends i a kw_batch geo) = true) ->
        pytrends i k kw_batch geo = Returns data ->
        empty data = false ->
        2 * seconds_slept evs = backoff * k * (k + 1) + 2 * delay) /\
    (1 <= retries ->
     (forall a, 0 <= a < retries -> failed (pytrends i a kw_batch geo) = true) ->
     2 * seconds_slept evs = backoff * retries * (retries - 1)).
Proof.
  intros Hd Hb.
  rewrite (attempt_loop_run pytrends geo retries backoff delay i kw_batch
             (Z.to_nat retries) 0 st Hd Hb ltac:(lia) ltac:(f_equal; lia)).
  eexists. split; [reflexivity|]. split.
  - intros k data Hk Hbefore Hat He.
    rewrite (first_success_from_found pytrends geo i kw_batch (Z.to_nat retries)
               0 k data ltac:(lia) Hbefore Hat He).
    cbn [trace_from]. rewrite seconds_slept_app.
    pose proof (seconds_retry_trace i kw_batch (Z.to_nat k)) as Hsum.
    replace (Z.of_nat (Z.to_nat k)) with k in Hsum by lia.
    cbn [seconds_slept fold_right seconds]. lia.
  - intros Hr Hall.
    rewrite (first_success_from_all_failed pytrends geo i kw_batch
               (Z.to_nat retries) 0) by (intros a Ha; apply Hall; lia).
    cbn [trace_from].
    destruct (Z.ltb_spec 0 retries); [|lia].
    rewrite seconds_slept_app.
    pose proof (seconds_retry_trace i kw_batch (Z.to_nat (retries - 1))) as Hsum.
    replace (Z.of_nat (Z.to_nat (retries - 1))) with (retries - 1) in Hsum by lia.
    cbn [seconds_slept fold_right seconds]. nia.
Qed.

Lemma batch_trace_seconds (i : Z) (kw_batch : list string) :
  0 <= delay -> 0 <= backoff -> 1 <= retries ->
  0 <= 2 * seconds_slept (batch_trace (i, kw_batch))
    <= backoff * retries * (retries - 1) + 2 * delay.
Proof.
  intros Hd Hb Hr. unfold Trends.batch_trace, Trends.first_success.
  destruct (first_success_from pytrends geo i kw_batch 0 (Z.to_nat retries))
    as [[k data]|] eqn:Hfs; cbn [trace_from].
  - apply first_success_from_some in Hfs as (Hk & _).
    rewrite seconds_slept_app.
    pose proof (seconds_retry_trace i kw_batch (Z.to_nat k)) as Hsum.
    replace (Z.of_nat (Z.to_nat k)) with k in Hsum by lia.
    cbn [seconds_slept fold_right seconds]. nia.
  - destruct (Z.ltb_spec 0 retries); [|lia].
    rewrite seconds_slept_app.
    pose proof (seconds_retry_trace i kw_batch (Z.to_nat (retries - 1))) as Hsum.
    replace (Z.of_nat (Z.to_nat (retries - 1))) with (retries - 1) in Hsum by lia.
    cbn [seconds_slept fold_right seconds]. nia.
Qed.

(** X10.  For a valid batch size, non-negative sleeps and [retries >= 1], a
    whole fetch sleeps at most [backoff * retries * (retries - 1) / 2 +
    delay] per batch, whatever the provider does. *)
Theorem fetch_sleeping_time (keywords : list string) (batch_size : Z) :
  1 <= batch_size -> 0 <= delay -> 0 <= backoff -> 1 <= retries ->
  0 <= 2 * seconds_slept (snd (fetch_google_trends keywords batch_size))
    <= ((Z.of_nat (length keywords) + batch_size - 1) / batch_size)
       * (backoff * retries * (retries - 1) + 2 * delay).
Proof.
  intros Hs Hd Hb Hr.
  destruct (fetch_run pytrends geo retries backoff delay keywords batch_size
              Hs Hd Hb) as (batches & Hbatch & Hrun).
  rewrite Hrun. cbn [snd].
  rewrite <- (BatcherExtra.batch_count keywords batch_size batches Hs Hbatch).
  set (worst := backoff * retries * (retries - 1) + 2 * delay).
  assert (Hgen : forall bs start_,
    0 <= 2 * seconds_slept (concat (map batch_trace (enumerate bs start_)))
      <= Z.of_nat (length bs) * worst).
  { induction bs as [|b bs IH]; intros start_.
    - simpl. lia.
    - cbn [enumerate map concat]. rewrite seconds_slept_app.
      pose proof (batch_trace_seconds start_ b Hd Hb Hr) as H1.
      fold worst in H1. specialize (IH (start_ + 1)).
      rewrite length_cons, Nat2Z.inj_succ. lia. }
  apply Hgen.
Qed.

(** X11.  With a negative backoff, a failed attempt that has a retry left
    makes the loop raise [ValueError] out of the handler; when this is the
    first request of the run the fetch raises after that one request and
    returns nothing. *)
Theorem negative_backoff_aborts (i attempt : Z) (kw_batch : list string)
    (st : Run) (keywords : list string) (batch_size : Z) :
  backoff < 0 ->
  (0 <= attempt -> attempt + 1 < retries ->
   failed (pytrends i attempt kw_batch geo) = true ->
   attempt_loop i kw_batch attempt st =
   (Raised ValueError, log (Request i attempt kw_batch geo) st)) /\
  (1 <= batch_size -> keywords <> [] -> 2 <= retries ->
   failed (pytrends 1 0 (firstn (Z.to_nat batch_size) keywords) geo) = true ->
   fetch_google_trends keywords batch_size =
   (Raise ValueError,
    [Request 1 0 (firstn (Z.to_nat batch_size) keywords) geo])).
Proof.
  intros Hneg.
  assert (Hloop : forall i attempt kw_batch st,
    0 <= attempt -> attempt + 1 < retries ->
    failed (pytrends i attempt kw_batch geo) = true ->
    attempt_loop i kw_batch attempt st =
    (Raised ValueError, log (Request i attempt kw_batch geo) st)).
  { clear i attempt kw_batch st. intros i attempt kw_batch st Ha Hnext Hf.
    rewrite attempt_loop_unfold.
    destruct (Z.ltb_spec attempt retries); [|lia].
    destruct (try_body_failed pytrends geo delay i attempt kw_batch st Hf) as [e ->].
    destruct (Z.ltb_spec (attempt + 1) retries); [|lia].
    unfold sleep. destruct (Z.ltb_spec (backoff * (attempt + 1)) 0); [reflexivity|].
    nia. }
  split; [apply Hloop|].
  intros Hs Hne Hr Hf.
  unfold Trends.fetch_google_trends, total_batches.
  destruct (Z.eqb_spec batch_size 0); [lia|].
  rewrite (BatcherFacts.batch_of_valid_size keywords batch_size Hs).
  destruct keywords as [|kw kws]; [contradiction|].
  rewrite BatcherFacts.batch_loop_cons.
  replace (S (Z.to_nat (batch_size - 1))) with (Z.to_nat batch_size) in * by lia.
  cbn [enumerate Trends.for_batches].
  rewrite Hloop by (try lia; exact Hf). reflexivity.
Qed.

Lemma try_body_negative_delay (i attempt : Z) (kw_batch : list string)
    (st : Run) (data : DataFrame) :
  delay < 0 ->
  pytrends i attempt kw_batch geo = Returns data ->
  empty data = false ->
  Trends.try_body pytrends geo delay i attempt kw_batch st =
  (Raised ValueError,
   {| trends_data := trends_data st ++ records_of (drop_isPartial data) kw_batch;
      trace := trace st ++ [Request i attempt kw_batch geo] |}).
Proof.
  intros Hd Hp He.
  rewrite (try_body_frame pytrends geo delay i attempt kw_batch st data Hp He).
  unfold sleep. destruct (Z.ltb_spec delay 0); [reflexivity|lia].
Qed.

Lemma attempt_loop_negative_delay (i : Z) (kw_batch : list string) (fuel : nat) :
  forall attempt st,
  delay < 0 -> 0 <= backoff -> 0 <= attempt ->
  fuel = Z.to_nat (retries - attempt) ->
  (forall a, attempt <= a < retries ->
             exists data, pytrends i a kw_batch geo = Returns data /\
                          empty data = false) ->
  attempt_loop i kw_batch attempt st =
  (Normal,
   {| trends_data :=
        trends_data st ++ flat_map (records_at i kw_batch) (attempts attempt retries);
      trace :=
        trace st ++ trace_from geo retries backoff delay i kw_batch attempt None |}).
Proof.
  induction fuel as [|fuel IH]; intros attempt st Hd Hb Ha Hfuel Hall;
    rewrite attempt_loop_unfold; cbn [trace_from];
    destruct (Z.ltb_spec attempt retries) as [Hlt|Hge]; try lia.
  - rewrite attempts_nil by lia. simpl. rewrite !app_nil_r, run_eta. reflexivity.
  - destruct (Hall attempt ltac:(lia)) as (data & Hp & He).
    rewrite (try_body_negative_delay i attempt kw_batch st data Hd Hp He).
    rewrite (attempts_cons attempt retries Hlt). cbn [flat_map].
    assert (Hat : records_at i kw_batch attempt
                  = records_of (drop_isPartial data) kw_batch).
    { unfold Effects.records_at. rewrite Hp, He. reflexivity. }
    rewrite Hat.
    destruct (Z.ltb_spec (attempt + 1) retries) as [Hnext|Hlast].
    + rewrite sleep_ok by nia.
      rewrite (IH (attempt + 1)); try assumption; try lia.
      * cbn [trace_from].
        destruct (Z.ltb_spec (attempt + 1) retries); [|lia].
        rewrite (retry_trace_cons geo backoff i kw_batch attempt (retries - 1))
          by lia.
        unfold log. simpl. rewrite <- !app_assoc. reflexivity.
      * intros a Ha'. apply Hall. lia.
    + rewrite (attempts_nil (attempt + 1) retries) by lia.
      rewrite retry_trace_nil by lia.
      replace (retries - 1) with attempt by lia.
      simpl. rewrite app_nil_r. reflexivity.
Qed.

(** X12.  With a negative delay and a non-negative backoff, the
    [time.sleep(delay)] of line 142 raises inside the [try], after the
    records were stored.  So when every attempt of a batch gets a frame
    that is not empty, the loop makes all its [retries] requests with the
    backoff sleeps of a batch that fails throughout, never sleeps the
    delay, and stores the records of every one of these responses. *)
Theorem negative_delay_repeats (i : Z) (kw_batch : list string) (st : Run) :
  delay < 0 -> 0 <= backoff ->
  (forall a, 0 <= a < retries ->
             exists data, pytrends i a kw_batch geo = Returns data /\
                          empty data = false) ->
  attempt_loop i kw_batch 0 st =
  (Normal,
   {| trends_data :=
        trends_data st ++ flat_map (records_at i kw_batch) (attempts 0 retries);
      trace :=
        trace st
        ++ (if 0 <? retries
            then retry_trace i kw_batch 0 (retries - 1)
                 ++ [Request i (retries - 1) kw_batch geo]
            else []) |}).
Proof.
  intros Hd Hb Hall.
  exact (attempt_loop_negative_delay i kw_batch (Z.to_nat retries) 0 st
           Hd Hb ltac:(lia) ltac:(f_equal; lia) Hall).
Qed.
End Order.

Lemma fetch_keeps_order_witness :
  match fst (Trends.fetch_google_trends Scenario.flaky "IN" 3 5 15
               Scenario.keywords 2) with
  | Ok records => subsequence (map keyword records) Scenario.keywords
  | Raise _ => False
  end.
Proof.
  destruct (Trends.fetch_google_trends Scenario.flaky "IN" 3 5 15
              Scenario.keywords 2) as [[records|e] tr] eqn:Hrun; cbn [fst].
  - apply (fetch_keeps_order Scenario.flaky "IN" 3 5 15 Scenario.keywords 2
             records tr); try lia. exact Hrun.
  - vm_compute in Hrun. discriminate.
Defined.

Lemma batch_sleeping_time_witness :
  exists evs,
    trace (snd (Trends.attempt_loop Scenario.flaky "IN" 3 5 15 2 ["r"; "s"] 0 start))
    = trace start ++ evs /\
    2 * seconds_slept evs = 5 * 3 * (3 - 1).
Proof.
  destruct (batch_sleeping_time Scenario.flaky "IN" 3 5 15 2 ["r"; "s"] start)
    as (evs & Htrace & _ & Hall); try lia.
  exists evs. split; [exact Htrace|].
  apply Hall; [lia|]. intros a Ha. reflexivity.
Defined.

Lemma fetch_sleeping_time_witness :
  0 <= 2 * seconds_slept (snd (Trends.fetch_google_trends
                                 Scenario.flaky "IN" 3 5 15 Scenario.keywords 2))
    <= ((Z.of_nat (length Scenario.keywords) + 2 - 1) / 2)
       * (5 * 3 * (3 - 1) + 2 * 15).
Proof.
  apply (fetch_sleeping_time Scenario.flaky "IN" 3 5 15 Scenario.keywords 2); lia.
Defined.

Lemma negative_backoff_aborts_witness :
  Trends.fetch_google_trends Scenario.flaky "IN" 3 (-5) 15 ["p"; "q"] 2 =
  (Raise ValueError, [Request 1 0 (firstn (Z.to_nat 2) ["p"; "q"]) "IN"]).
Proof.
  apply (negative_backoff_aborts Scenario.flaky "IN" 3 (-5) 15
           1 0 ["p"; "q"] start ["p"; "q"] 2); try lia.
  - discriminate.
  - reflexivity.
Defined.

Lemma negative_delay_repeats_witness :
  trends_data
    (snd (Trends.attempt_loop Scenario.reliable "IN" 2 5 (-1) 1 ["p"] 0 start)) =
  [{| keyword := "p"; trends_score := mean [40; 60] |};
   {| keyword := "p"; trends_score := mean [40; 60] |}].
Proof.
  rewrite (negative_delay_repeats Scenario.reliable "IN" 2 5 (-1) 1 ["p"] start);
    try lia.
  - reflexivity.
  - intros a Ha. eexists. split; reflexivity.
Defined.

End TrendsExtra.

(** * More on the merge stage and the CPC stub *)
Module MergerExtra.
Import Merger Measures MergerFacts.

Local Open Scope string_scope.
Local Open Scope list_scope.

Lemma matches_length (row : Row) (df : DataFrame) :
  length (matches row (frame_of_cpc df)) = occurrences (keyword row) df.
Proof.
  unfold matches, frame_of_cpc, occurrences.
  rewrite filter_map_swap, length_map. reflexivity.
Qed.

Lemma matches_In (row r : Row) (df : DataFrame) :
  In r (matches row (frame_of_cpc df)) ->
  keyword r = keyword row /\
  cpc_usd r = Some (get_cpc_from_ubersuggest (keyword row)).
Proof.
  unfold matches. rewrite filter_In. intros [Hin Heq].
  apply String.eqb_eq in Heq.
  unfold frame_of_cpc in Hin. apply in_map_iff in Hin as (row' & <- & _).
  cbn [keyword cpc_usd] in *. rewrite Heq. split; reflexivity.
Qed.

Lemma matches_own_row (row : Row) (df : DataFrame) :
  In row df -> matches row (frame_of_cpc df) <> [].
Proof.
  intros Hin Hnil.
  pose proof (matches_length row df) as Hlen. rewrite Hnil in Hlen.
  unfold occurrences in Hlen. symmetry in Hlen.
  apply length_zero_iff_nil in Hlen.
  assert (Hrow : In row (filter (fun r => String.eqb (keyword r) (keyword row)) df)).
  { apply filter_In. split; [exact Hin|apply String.eqb_refl]. }
  rewrite Hlen in Hrow. destruct Hrow.
Qed.

(** A row of the merge comes from a row of the left frame. *)
Lemma merge_left_In (left right : DataFrame) (row : Row) :
  In row (merge_left left right) ->
  exists l, In l left /\ keyword row = keyword l /\
            trends_score row = trends_score l /\
            (cpc_usd row = None /\ matches l right = [] \/
             exists r, In r (matches l right) /\ cpc_usd row = cpc_usd r).
Proof.
  unfold merge_left. rewrite in_flat_map. intros (l & Hl & Hin).
  exists l. split; [exact Hl|].
  destruct (matches l right) as [|r rs] eqn:Hm.
  - destruct Hin as [<-|[]]. repeat split. left. split; reflexivity.
  - apply in_map_iff in Hin as (c & <- & Hc). repeat split.
    right. exists c. split; [exact Hc|reflexivity].
Qed.

Lemma final_frame_cases (expanded_keywords : list string)
    (trends_data : list Trends.TrendRecord) (min_score : Q) :
  let trends_df := trends_frame expanded_keywords trends_data min_score in
  final_frame expanded_keywords trends_data min_score =
  merge_left trends_df (frame_of_cpc trends_df).
Proof.
  cbv zeta. unfold final_frame, cpc_frame.
  destruct (trends_frame expanded_keywords trends_data min_score) as [|row df];
    reflexivity.
Qed.

(** X13.  Whatever the input, every row of the final frame carries the
    cost that the CPC stub gives for its keyword: [cpc_usd] is never
    missing in the output. *)
Theorem final_rows_have_cost (expanded_keywords : list string)
    (trends_data : list Trends.TrendRecord) (min_score : Q) (row : Row) :
  In row (final_frame expanded_keywords trends_data min_score) ->
  cpc_usd row = Some (get_cpc_from_ubersuggest (keyword row)).
Proof.
  rewrite final_frame_cases. cbv zeta. intros Hin.
  apply merge_left_In in Hin as (l & Hl & Hkey & _ & [[_ Hnil]|(r & Hr & Hcost)]).
  - exfalso. exact (matches_own_row l _ Hl Hnil).
  - apply matches_In in Hr as [_ Hr]. rewrite Hcost, Hr, Hkey. reflexivity.
Qed.

Lemma final_rows_have_cost_witness :
  cpc_usd {| keyword := "x"; trends_score := None;
             cpc_usd := Some (get_cpc_from_ubersuggest "x") |}
  = Some (get_cpc_from_ubersuggest "x").
Proof.
  apply (final_rows_have_cost ["x"; "y"] [] 0%Q). left. reflexivity.
Defined.

(** X14.  Whatever the input, a row of the final frame either comes from
    the fallback (the fetch returned nothing: the row has no score and its
    keyword is an input keyword) or carries the keyword and the score of a
    fetched record whose score is at least [min_score]. *)
Theorem final_rows_pass_filter (expanded_keywords : list string)
    (trends_data : list Trends.TrendRecord) (min_score : Q) (row : Row) :
  In row (final_frame expanded_keywords trends_data min_score) ->
  (trends_data = [] /\ trends_score row = None /\
   In (keyword row) expanded_keywords) \/
  (exists r, In r trends_data /\
             keyword row = Trends.keyword r /\
             trends_score row = Some (Trends.trends_score r) /\
             Qle_bool min_score (Trends.trends_score r) = true).
Proof.
  rewrite final_frame_cases. cbv zeta. intros Hin.
  apply merge_left_In in Hin as (l & Hl & Hkey & Hscore & _).
  unfold trends_frame in Hl. destruct trends_data as [|r0 rs].
  - left. unfold frame_of_keywords in Hl.
    apply in_map_iff in Hl as (kw & <- & Hkw).
    rewrite Hkey, Hscore. repeat split. exact Hkw.
  - right. apply filter_In in Hl as [Hl Hge].
    unfold frame_of_trends in Hl. apply in_map_iff in Hl as (r & <- & Hr).
    exists r. rewrite Hkey, Hscore. repeat split; [exact Hr|].
    exact Hge.
Qed.

Lemma final_rows_pass_filter_witness :
  exists r,
    In r [{| Trends.keyword := "a"; Trends.trends_score := 70%Q |};
          {| Trends.keyword := "b"; Trends.trends_score := 30%Q |}] /\
    Trends.keyword r = "a" /\ Qle_bool 50%Q (Trends.trends_score r) = true.
Proof.
  destruct (final_rows_pass_filter ["a"; "b"]
              [{| Trends.keyword := "a"; Trends.trends_score := 70%Q |};
               {| Trends.keyword := "b"; Trends.trends_score := 30%Q |}] 50%Q
              {| keyword := "a"; trends_score := Some 70%Q;
                 cpc_usd := Some (get_cpc_from_ubersuggest "a") |})
    as [[Hnil _]|(r & Hr & Hkey & _ & Hge)].
  - left. reflexivity.
  - discriminate.
  - exists r. repeat split; [exact Hr|symmetry; exact Hkey|exact Hge].
Defined.

Lemma occurrences_app (kw : string) (df1 df2 : DataFrame) :
  occurrences kw (df1 ++ df2) = (occurrences kw df1 + occurrences kw df2)%nat.
Proof. unfold occurrences. rewrite filter_app, length_app. reflexivity. Qed.

Lemma occurrences_with_cost (kw : string) (row : Row) (ms : DataFrame) :
  occurrences kw (map (fun r => with_cost row (cpc_usd r)) ms) =
  if String.eqb (keyword row) kw then length ms else O.
Proof.
  unfold occurrences. induction ms as [|m ms IH]; simpl.
  - destruct (String.eqb (keyword row) kw); reflexivity.
  - destruct (String.eqb (keyword row) kw); simpl; rewrite IH; reflexivity.
Qed.

(** X15.  Whatever the input, a keyword that occurs [n] times in the
    frame of trend rows occurs [n * n] times in the final frame: the left
    join pairs every trend row with every cost row of the same keyword. *)
Theorem final_rows_squared (expanded_keywords : list string)
    (trends_data : list Trends.TrendRecord) (min_score : Q) (kw : string) :
  let n := occurrences kw (trends_frame expanded_keywords trends_data min_score) in
  occurrences kw (final_frame expanded_keywords trends_data min_score) = (n * n)%nat.
Proof.
  cbv zeta. rewrite final_frame_cases. cbv zeta.
  set (df := trends_frame expanded_keywords trends_data min_score).
  assert (Hgen : forall l, incl l df ->
    occurrences kw (merge_left l (frame_of_cpc df))
    = (occurrences kw l * occurrences kw df)%nat).
  { induction l as [|row l IH]; intros Hincl; [reflexivity|].
    unfold merge_left. cbn [flat_map]. fold (merge_left l (frame_of_cpc df)).
    rewrite occurrences_app, IH by (intros x Hx; apply Hincl; right; exact Hx).
    assert (Hrow : In row df) by (apply Hincl; left; reflexivity).
    pose proof (matches_own_row row df Hrow) as Hne.
    pose proof (matches_length row df) as Hlen.
    destruct (matches row (frame_of_cpc df)) as [|m ms] eqn:Hm; [contradiction|].
    rewrite occurrences_with_cost, Hlen.
    change (row :: l) with ([row] ++ l). rewrite (occurrences_app kw [row] l).
    assert (Hone : occurrences kw [row]
                   = if String.eqb (keyword row) kw then 1%nat else O).
    { unfold occurrences. cbn [filter].
      destruct (String.eqb (keyword row) kw); reflexivity. }
    rewrite Hone.
    destruct (String.eqb_spec (keyword row) kw) as [Heq|Hne'].
    - rewrite Heq. nia.
    - nia. }
  apply Hgen. apply incl_refl.
Qed.

Lemma final_rows_squared_witness :
  occurrences "x" (final_frame ["x"; "x"] [] 0%Q) = (2 * 2)%nat.
Proof.
  apply (final_rows_squared ["x"; "x"] [] 0%Q "x").
Defined.

(** ** The words of a keyword and its cost *)

Lemma split_from_space (c : ascii) (b : string) : forall (a word : string),
  isspace c = true ->
  split_from word (a ++ String c b)%string = split_from word a ++ split b.
Proof.
  induction a as [|d a IH]; intros word Hc.
  - cbn [String.append split_from]. rewrite Hc. unfold split.
    destruct word; reflexivity.
  - cbn [String.append split_from].
    destruct (isspace d).
    + destruct word; rewrite IH by exact Hc; reflexivity.
    + apply IH. exact Hc.
Qed.

Lemma all_chars_app (p : ascii -> bool) (s t : string) :
  all_chars p (s ++ t)%string = all_chars p s && all_chars p t.
Proof.
  induction s as [|c s IH]; [reflexivity|].
  cbn [String.append all_chars]. rewrite IH, andb_assoc. reflexivity.
Qed.

Lemma split_from_words (s : string) : forall (word w : string),
  all_chars (fun c => negb (isspace c)) word = true ->
  In w (split_from word s) ->
  w <> "" /\ all_chars (fun c => negb (isspace c)) w = true.
Proof.
  induction s as [|c s IH]; intros word w Hword Hin.
  - cbn [split_from] in Hin. destruct word as [|d word]; [destruct Hin|].
    destruct Hin as [<-|[]]. split; [discriminate|exact Hword].
  - cbn [split_from] in Hin. destruct (isspace c) eqn:Hc.
    + destruct word as [|d word].
      * exact (IH "" w eq_refl Hin).
      * destruct Hin as [<-|Hin]; [split; [discriminate|exact Hword]|].
        exact (IH "" w eq_refl Hin).
    + apply (IH (word ++ String c "")%string w); [|exact Hin].
      rewrite all_chars_app, Hword. cbn [all_chars]. rewrite Hc. reflexivity.
Qed.

(** X16.  [keyword.split()] across a white-space character: the words of
    [a ++ c ++ b] are the words of [a] followed by the words of [b]; so
    the stub prices the joined keyword as a keyword of as many words as
    [a] and [b] have together. *)
Theorem split_at_space (a b : string) (c : ascii) :
  isspace c = true ->
  split (a ++ String c b)%string = split a ++ split b /\
  get_cpc_from_ubersuggest (a ++ String c b)%string
  = words_cost (length (split a) + length (split b)).
Proof.
  intros Hc.
  assert (Hsplit : split (a ++ String c b)%string = split a ++ split b).
  { unfold split at 1 2. apply split_from_space. exact Hc. }
  split; [exact Hsplit|].
  unfold get_cpc_from_ubersuggest, words_cost.
  rewrite Hsplit, length_app. reflexivity.
Qed.

Lemma split_at_space_witness :
  split ("whey" ++ String " " "protein")%string = split "whey" ++ split "protein" /\
  get_cpc_from_ubersuggest ("whey" ++ String " " "protein")%string
  = words_cost (length (split "whey") + length (split "protein")).
Proof.
  apply (split_at_space "whey" "protein" " "). reflexivity.
Defined.

(** X17.  Every word that [keyword.split()] yields is non-empty and holds
    no white-space character. *)
Theorem split_words_clean (s w : string) :
  In w (split s) ->
  w <> "" /\ all_chars (fun c => negb (isspace c)) w = true.
Proof.
  unfold split. apply split_from_words. reflexivity.
Qed.

Lemma split_words_clean_witness :
  "protein" <> "" /\ all_chars (fun c => negb (isspace c)) "protein" = true.
Proof.
  apply (split_words_clean "  vegan  protein powder " "protein").
  vm_compute. tauto.
Defined.

End MergerExtra.

(** * Properties of the keyword parsers *)
Module KeywordsFacts.
Import Merger Measures Keywords.

Local Open Scope string_scope.
Local Open Scope Z_scope.
Local Open Scope list_scope.

Lemma lstrip_idem (s : string) : lstrip (lstrip s) = lstrip s.
Proof.
  induction s as [|c s IH]; [reflexivity|].
  cbn [lstrip]. destruct (isspace c) eqn:Hc; [exact IH|].
  cbn [lstrip]. rewrite Hc. reflexivity.
Qed.

Lemma rstrip_idem (s : string) : rstrip (rstrip s) = rstrip s.
Proof.
  induction s as [|c s IH]; [reflexivity|].
  cbn [rstrip]. destruct (rstrip s) as [|d t] eqn:Hr.
  - destruct (isspace c) eqn:Hc; [reflexivity|].
    cbn [rstrip]. rewrite Hc. reflexivity.
  - cbn [rstrip] in *. rewrite IH. reflexivity.
Qed.

(** Stripping on the left keeps a string stripped on the right. *)
Lemma rstrip_lstrip (s : string) : rstrip s = s -> rstrip (lstrip s) = lstrip s.
Proof.
  induction s as [|c s IH]; intros H; [reflexivity|].
  cbn [lstrip]. destruct (isspace c) eqn:Hc; [|exact H].
  apply IH. cbn [rstrip] in H.
  destruct (rstrip s) as [|d t].
  - rewrite Hc in H. discriminate.
  - injection H as H. exact H.
Qed.

Lemma strip_lstrip (s : string) : lstrip (strip s) = strip s.
Proof. unfold strip. apply lstrip_idem. Qed.

Lemma strip_rstrip (s : string) : rstrip (strip s) = strip s.
Proof. unfold strip. apply rstrip_lstrip. apply rstrip_idem. Qed.

Lemma all_chars_lstrip (p : ascii -> bool) (s : string) :
  all_chars p s = true -> all_chars p (lstrip s) = true.
Proof.
  induction s as [|c s IH]; intros H; [reflexivity|].
  cbn [lstrip]. destruct (isspace c); [|exact H].
  apply IH. cbn [all_chars] in H. apply andb_true_iff in H. apply H.
Qed.

Lemma all_chars_rstrip (p : ascii -> bool) (s : string) :
  all_chars p s = true -> all_chars p (rstrip s) = true.
Proof.
  induction s as [|c s IH]; intros H; [reflexivity|].
  cbn [all_chars] in H. apply andb_true_iff in H as [Hc Hs].
  cbn [rstrip]. destruct (rstrip s) as [|d t].
  - destruct (isspace c); [reflexivity|]. cbn [all_chars]. rewrite Hc. reflexivity.
  - cbn [all_chars] in *. rewrite Hc. exact (IH Hs).
Qed.

Lemma all_chars_strip (p : ascii -> bool) (s : string) :
  all_chars p s = true -> all_chars p (strip s) = true.
Proof.
  intros H. unfold strip. apply all_chars_lstrip, all_chars_rstrip, H.
Qed.

Lemma all_chars_slice_from (p : ascii -> bool) (n : nat) : forall s,
  all_chars p s = true -> all_chars p (slice_from n s) = true.
Proof.
  induction n as [|n IH]; intros s H; [exact H|].
  destruct s as [|c s]; [reflexivity|].
  cbn [slice_from]. apply IH. cbn [all_chars] in H.
  apply andb_true_iff in H. apply H.
Qed.

Lemma all_chars_snoc (p : ascii -> bool) (s : string) (c : ascii) :
  all_chars p (s ++ String c "")%string = all_chars p s && p c.
Proof.
  induction s as [|d s IH]; cbn [String.append all_chars].
  - rewrite andb_true_r. reflexivity.
  - rewrite IH, andb_assoc. reflexivity.
Qed.

Lemma CR_is_linebreak (c : ascii) : Ascii.eqb c CR = true -> is_linebreak c = true.
Proof. intros H. apply Ascii.eqb_eq in H. subst c. reflexivity. Qed.

(** The lines of [splitlines] hold no line boundary. *)
Lemma splitlines_from_lines (s : string) : forall (line l : string),
  all_chars (fun c => negb (is_linebreak c)) line = true ->
  In l (splitlines_from line s) ->
  all_chars (fun c => negb (is_linebreak c)) l = true.
Proof.
  induction s as [|c s IH]; intros line l Hline Hin.
  - cbn [splitlines_from] in Hin. destruct line; [destruct Hin|].
    destruct Hin as [<-|[]]. exact Hline.
  - cbn [splitlines_from] in Hin.
    destruct (Ascii.eqb c CR) eqn:Hcr.
    + destruct s as [|c' s'].
      * destruct Hin as [<-|[]]. exact Hline.
      * destruct (Ascii.eqb c' LF) eqn:Hlf.
        -- destruct Hin as [<-|Hin]; [exact Hline|].
           assert (Hsub : In l (splitlines_from "" (String c' s'))).
           { cbn [splitlines_from]. apply Ascii.eqb_eq in Hlf. subst c'.
             cbn. right. exact Hin. }
           exact (IH "" l eq_refl Hsub).
        -- destruct Hin as [<-|Hin]; [exact Hline|].
           exact (IH "" l eq_refl Hin).
    + destruct (is_linebreak c) eqn:Hlb.
      * destruct Hin as [<-|Hin]; [exact Hline|].
        exact (IH "" l eq_refl Hin).
      * apply (IH (line ++ String c "")%string l); [|exact Hin].
        rewrite all_chars_snoc, Hline, Hlb. reflexivity.
Qed.

Lemma truthy_nonempty (s : string) : truthy s = true -> s <> "".
Proof. destruct s; [discriminate|]. intros _. discriminate. Qed.

(** The keyword cut out of a line of [splitlines] is [clean] when it is
    not empty. *)
Lemma keyword_of_line_clean (line : string) :
  all_chars (fun c => negb (is_linebreak c)) line = true ->
  truthy (strip (slice_from 2 (strip line))) = true ->
  clean (strip (slice_from 2 (strip line))).
Proof.
  intros Hline Hkw. unfold clean.
  split; [apply truthy_nonempty; exact Hkw|].
  split; [apply strip_lstrip|]. split; [apply strip_rstrip|].
  apply all_chars_strip, all_chars_slice_from, all_chars_strip, Hline.
Qed.

Section Parsers.
Variable generate_with_gemini : string -> string.
Variable list_set : list string -> list string.

Local Abbreviation extract_seed_keywords_from_text :=
  (extract_seed_keywords_from_text generate_with_gemini).
Local Abbreviation expand_keywords_gemini_flash :=
  (expand_keywords_gemini_flash generate_with_gemini list_set).

Lemma member_false (kw : string) (keywords : list string) :
  member kw keywords = false -> ~ In kw keywords.
Proof.
  unfold member. destruct (in_dec string_dec kw keywords); [discriminate|].
  intros _. assumption.
Qed.

Lemma NoDup_snoc (kw : string) (keywords : list string) :
  NoDup keywords -> ~ In kw keywords -> NoDup (keywords ++ [kw]).
Proof.
  intros Hnd Hout. apply NoDup_app; [exact Hnd|repeat constructor; intros []|].
  intros x Hx [<-|[]]. exact (Hout Hx).
Qed.

(** The loop of the seed parser keeps its list distinct and clean. *)
Lemma extract_loop_clean (max_keywords : Z) (lines : list string) :
  forall keywords,
  Forall (fun l => all_chars (fun c => negb (is_linebreak c)) l = true) lines ->
  NoDup keywords -> Forall clean keywords ->
  NoDup (extract_loop max_keywords lines keywords) /\
  Forall clean (extract_loop max_keywords lines keywords).
Proof.
  induction lines as [|line lines IH]; intros keywords Hlines Hnd Hclean.
  - split; assumption.
  - apply Forall_cons_iff in Hlines as [Hline Hlines].
    cbn [extract_loop]. destruct (is_bullet (strip line)); [|apply IH; assumption].
    set (kw := strip (slice_from 2 (strip line))).
    assert (Hnext : NoDup (if truthy kw && negb (member kw keywords)
                           then keywords ++ [kw] else keywords) /\
                    Forall clean (if truthy kw && negb (member kw keywords)
                                  then keywords ++ [kw] else keywords)).
    { destruct (truthy kw) eqn:Ht; [|split; assumption].
      destruct (member kw keywords) eqn:Hm; [split; assumption|].
      cbn [negb andb]. split.
      - apply NoDup_snoc; [exact Hnd|apply member_false; exact Hm].
      - apply Forall_app. split; [exact Hclean|].
        constructor; [|constructor].
        apply keyword_of_line_clean; assumption. }
    destruct Hnext as [Hnd' Hclean'].
    destruct (Z.of_nat (length (if truthy kw && negb (member kw keywords)
                                then keywords ++ [kw] else keywords))
              >=? max_keywords).
    + split; assumption.
    + apply IH; assumption.
Qed.

Lemma splitlines_lines (s : string) :
  Forall (fun l => all_chars (fun c => negb (is_linebreak c)) l = true)
         (splitlines s).
Proof.
  apply Forall_forall. intros l Hin.
  exact (splitlines_from_lines s "" l eq_refl Hin).
Qed.

(** X18.  Whatever the response, the seed keywords extracted from it are
    distinct, and each is non-empty, has no white space at either end and
    holds no line boundary. *)
Theorem extract_keywords_clean (text : string) (max_keywords : Z) :
  NoDup (extract_seed_keywords_from_text text max_keywords) /\
  Forall clean (extract_seed_keywords_from_text text max_keywords).
Proof.
  unfold Keywords.extract_seed_keywords_from_text.
  destruct (negb (truthy (generate_with_gemini (extract_prompt text)))).
  - split; constructor.
  - apply extract_loop_clean; [apply splitlines_lines|constructor|constructor].
Qed.

Lemma extract_loop_length (max_keywords : Z) (lines : list string) :
  forall keywords,
  Z.of_nat (length keywords) < max_keywords \/ keywords = [] ->
  Z.of_nat (length (extract_loop max_keywords lines keywords))
  <= Z.max 1 max_keywords.
Proof.
  induction lines as [|line lines IH]; intros keywords Hinv.
  - cbn [extract_loop]. destruct Hinv as [H| ->]; simpl; lia.
  - cbn [extract_loop]. destruct (is_bullet (strip line)); [|apply IH; exact Hinv].
    set (kw := strip (slice_from 2 (strip line))).
    set (keywords' := if truthy kw && negb (member kw keywords)
                      then keywords ++ [kw] else keywords).
    assert (Hlen : (length keywords' <= length keywords + 1)%nat).
    { subst keywords'. destruct (truthy kw && negb (member kw keywords)).
      - rewrite length_app. simpl. lia.
      - lia. }
    destruct (Z.geb_spec (Z.of_nat (length keywords')) max_keywords) as [Hge|Hlt].
    + destruct Hinv as [H| ->]; simpl in *; lia.
    + apply IH. left. exact Hlt.
Qed.

(** X19.  Whatever the response, the seed parser returns at most
    [max_keywords] keywords, or one keyword when [max_keywords] is below
    1 (the limit is only checked after a bullet line was read). *)
Theorem extract_at_most_max (text : string) (max_keywords : Z) :
  Z.of_nat (length (extract_seed_keywords_from_text text max_keywords))
  <= Z.max 1 max_keywords.
Proof.
  unfold Keywords.extract_seed_keywords_from_text.
  destruct (negb (truthy (generate_with_gemini (extract_prompt text)))).
  - simpl. lia.
  - apply extract_loop_length. right. reflexivity.
Qed.

(** ** Reading back a bullet list *)

Lemma append_nil_r (s : string) : (s ++ "")%string = s.
Proof. induction s as [|c s IH]; [reflexivity|]. cbn. rewrite IH. reflexivity. Qed.

Lemma append_snoc (s t : string) (c : ascii) :
  ((s ++ String c "") ++ t)%string = (s ++ String c t)%string.
Proof. induction s as [|d s IH]; [reflexivity|]. cbn. rewrite IH. reflexivity. Qed.

(** A stretch without line boundary is read into the current line. *)
Lemma splitlines_from_stretch (l : string) : forall (line s : string),
  all_chars (fun c => negb (is_linebreak c)) l = true ->
  splitlines_from line (l ++ s)%string = splitlines_from (line ++ l)%string s.
Proof.
  induction l as [|c l IH]; intros line s Hl.
  - cbn [String.append]. rewrite append_nil_r. reflexivity.
  - cbn [all_chars] in Hl. apply andb_true_iff in Hl as [Hc Hl].
    apply negb_true_iff in Hc.
    cbn [String.append splitlines_from].
    destruct (Ascii.eqb c CR) eqn:Hcr.
    + apply CR_is_linebreak in Hcr. congruence.
    + rewrite Hc, IH by exact Hl. rewrite append_snoc. reflexivity.
Qed.

Lemma splitlines_concat (lines : list string) :
  Forall (fun l => l <> "" /\
                   all_chars (fun c => negb (is_linebreak c)) l = true) lines ->
  splitlines (String.concat newline lines) = lines.
Proof.
  unfold splitlines. induction lines as [|x lines IH]; intros Hall; [reflexivity|].
  apply Forall_cons_iff in Hall as [[Hne Hx] Hall].
  destruct lines as [|y lines].
  - cbn [String.concat].
    rewrite <- (append_nil_r x) at 1.
    rewrite splitlines_from_stretch by exact Hx.
    cbn [String.append splitlines_from]. destruct x; [contradiction|reflexivity].
  - change (String.concat newline (x :: y :: lines))
      with (x ++ newline ++ String.concat newline (y :: lines))%string.
    rewrite splitlines_from_stretch by exact Hx.
    cbn [String.append]. unfold newline at 1.
    cbn [String.append splitlines_from].
    change (Ascii.eqb LF CR) with false. change (is_linebreak LF) with true.
    cbn iota. f_equal. apply IH. exact Hall.
Qed.

Lemma rstrip_cons (c : ascii) (s : string) :
  rstrip s <> "" -> rstrip (String c s) = String c (rstrip s).
Proof.
  intros H. cbn [rstrip]. destruct (rstrip s); [contradiction|reflexivity].
Qed.

(** A bullet line of a clean keyword is read back as that keyword. *)
Lemma bullet_line (kw : string) :
  clean kw ->
  let line := ("- " ++ kw)%string in
  strip line = line /\ is_bullet line = true /\
  strip (slice_from 2 line) = kw /\ truthy kw = true /\
  line <> "" /\ all_chars (fun c => negb (is_linebreak c)) line = true.
Proof.
  intros (Hne & Hl & Hr & Hlb). cbv zeta.
  assert (Hstrip : strip ("- " ++ kw)%string = ("- " ++ kw)%string).
  { unfold strip. cbn [String.append].
    rewrite rstrip_cons.
    - rewrite rstrip_cons by (rewrite Hr; exact Hne). rewrite Hr. reflexivity.
    - rewrite rstrip_cons by (rewrite Hr; exact Hne). discriminate. }
  split; [exact Hstrip|].
  split; [unfold is_bullet, startswith; cbn; destruct kw; reflexivity|].
  split; [|split; [|split]].
  - cbn [String.append slice_from]. unfold strip. rewrite Hr. exact Hl.
  - destruct kw; [contradiction|reflexivity].
  - discriminate.
  - cbn [String.append all_chars]. rewrite Hlb. reflexivity.
Qed.

Lemma extract_loop_bullets (max_keywords : Z) (kws : list string) :
  forall keywords,
  NoDup (keywords ++ kws) -> Forall clean kws ->
  Z.of_nat (length keywords) + Z.of_nat (length kws) <= max_keywords ->
  extract_loop max_keywords (map (fun kw => "- " ++ kw)%string kws) keywords
  = keywords ++ kws.
Proof.
  induction kws as [|kw kws IH]; intros keywords Hnd Hclean Hlen.
  - cbn. rewrite app_nil_r. reflexivity.
  - apply Forall_cons_iff in Hclean as [Hkw Hclean].
    destruct (bullet_line kw Hkw) as (Hstrip & Hbullet & Hcut & Htruthy & _).
    cbn [map extract_loop]. rewrite Hstrip, Hbullet, Hcut, Htruthy.
    assert (Hout : member kw keywords = false).
    { unfold member. destruct (in_dec string_dec kw keywords) as [Hin|]; [|reflexivity].
      exfalso. apply NoDup_remove_2 in Hnd. apply Hnd.
      apply in_or_app. left. exact Hin. }
    rewrite Hout. cbn [negb andb].
    replace (keywords ++ kw :: kws) with ((keywords ++ [kw]) ++ kws) in *
      by (rewrite <- app_assoc; reflexivity).
    cbn [length] in Hlen.
    destruct (Z.geb_spec (Z.of_nat (length (keywords ++ [kw]))) max_keywords)
      as [Hge|Hlt].
    + rewrite length_app in Hge. cbn [length] in Hge.
      destruct kws; [rewrite app_nil_r; reflexivity|]. cbn [length] in Hlen. lia.
    + apply IH; [exact Hnd|exact Hclean|].
      rewrite length_app. cbn [length]. lia.
Qed.

(** X20.  When the response is the bullet list (one [- keyword] line per
    keyword, joined by line feeds, as line 85 writes it) of distinct clean
    keywords, no more than [max_keywords] of them, the seed parser returns
    exactly these keywords, in order. *)
Theorem extract_reads_bullet_list (text : string) (max_keywords : Z)
    (kws : list string) :
  generate_with_gemini (extract_prompt text) = bullet_list kws ->
  NoDup kws -> Forall clean kws ->
  Z.of_nat (length kws) <= max_keywords ->
  extract_seed_keywords_from_text text max_keywords = kws.
Proof.
  intros Hresp Hnd Hclean Hlen.
  unfold Keywords.extract_seed_keywords_from_text. rewrite Hresp.
  destruct kws as [|kw kws]; [reflexivity|].
  assert (Htruthy : truthy (bullet_list (kw :: kws)) = true).
  { unfold bullet_list. cbn [map String.concat]. destruct kws; reflexivity. }
  rewrite Htruthy. cbn [negb].
  unfold bullet_list. rewrite splitlines_concat.
  - apply (extract_loop_bullets max_keywords (kw :: kws) []); assumption.
  - apply Forall_forall. intros l Hin.
    apply in_map_iff in Hin as (k & <- & Hk).
    rewrite Forall_forall in Hclean.
    destruct (bullet_line k (Hclean k Hk)) as (_ & _ & _ & _ & Hne & Hlb).
    split; assumption.
Qed.

(** ** The expansion *)

Lemma expand_loop_invariant (limit : Z) (seed_keywords : list string)
    (lines : list string) : forall expanded,
  Forall (fun l => all_chars (fun c => negb (is_linebreak c)) l = true) lines ->
  Forall clean expanded ->
  Z.of_nat (length expanded) < limit \/ expanded = [] ->
  Forall clean (expand_loop limit seed_keywords lines expanded) /\
  Z.of_nat (length (expand_loop limit seed_keywords lines expanded))
  <= Z.max 1 limit.
Proof.
  induction lines as [|line lines IH]; intros expanded Hlines Hclean Hinv.
  - cbn [expand_loop]. split; [exact Hclean|].
    destruct Hinv as [H| ->]; simpl; lia.
  - apply Forall_cons_iff in Hlines as [Hline Hlines].
    cbn [expand_loop].
    destruct (is_bullet (strip line)); [|apply IH; assumption].
    set (kw := strip (slice_from 2 (strip line))).
    set (expanded' := if truthy kw && negb (member kw expanded)
                         && negb (member kw seed_keywords)
                      then expanded ++ [kw] else expanded).
    assert (Hnext : Forall clean expanded' /\
                    (length expanded' <= length expanded + 1)%nat).
    { subst expanded'.
      destruct (truthy kw && negb (member kw expanded)
                && negb (member kw seed_keywords)) eqn:Hcond;
        [|split; [assumption|lia]].
      apply andb_true_iff in Hcond as [Hcond _].
      apply andb_true_iff in Hcond as [Ht _].
      split.
      - apply Forall_app. split; [exact Hclean|].
        constructor; [|constructor]. apply keyword_of_line_clean; assumption.
      - rewrite length_app. simpl. lia. }
    destruct Hnext as [Hclean' Hlen].
    destruct (Z.geb_spec (Z.of_nat (length expanded')) limit) as [Hge|Hlt].
    + split; [exact Hclean'|]. destruct Hinv as [H| ->]; simpl in *; lia.
    + apply IH; [exact Hlines|exact Hclean'|]. left. exact Hlt.
Qed.

(** X21.  Provided [list(set(...))] returns the elements of its argument
    once each, the expansion returns every seed keyword; its result is
    distinct when the seeds are; every keyword of the result is a seed or
    a clean keyword; and it adds at most [max_expansions *
    len(seed_keywords)] keywords to the seeds (one when that limit is
    below 1). *)
Theorem expand_keeps_seeds (seed_keywords : list string) (max_expansions : Z) :
  (forall l, NoDup (list_set l) /\ forall kw, In kw (list_set l) <-> In kw l) ->
  let result := expand_keywords_gemini_flash seed_keywords max_expansions in
  incl seed_keywords result /\
  (NoDup seed_keywords -> NoDup result) /\
  Forall (fun kw => In kw seed_keywords \/ clean kw) result /\
  Z.of_nat (length result)
  <= Z.of_nat (length seed_keywords)
     + Z.max 1 (max_expansions * Z.of_nat (length seed_keywords)).
Proof.
  intros Hset. cbv zeta. unfold Keywords.expand_keywords_gemini_flash.
  destruct (negb (truthy (generate_with_gemini (expand_prompt seed_keywords)))).
  - split; [apply incl_refl|]. split; [auto|]. split; [|lia].
    apply Forall_forall. intros kw Hkw. left. exact Hkw.
  - set (limit := max_expansions * Z.of_nat (length seed_keywords)).
    set (expanded := expand_loop limit seed_keywords
                       (splitlines (generate_with_gemini (expand_prompt seed_keywords)))
                       []).
    destruct (expand_loop_invariant limit seed_keywords
                (splitlines (generate_with_gemini (expand_prompt seed_keywords)))
                [] (splitlines_lines _) (Forall_nil _) (or_intror eq_refl))
      as [Hclean Hlen].
    fold expanded in Hclean, Hlen.
    destruct (Hset (seed_keywords ++ expanded)) as [Hnd Hin].
    split; [|split; [|split]].
    + intros kw Hkw. apply Hin. apply in_or_app. left. exact Hkw.
    + intros _. exact Hnd.
    + apply Forall_forall. intros kw Hkw. apply Hin in Hkw.
      apply in_app_or in Hkw as [Hkw|Hkw]; [left; exact Hkw|right].
      rewrite Forall_forall in Hclean. exact (Hclean kw Hkw).
    + assert (Hle : (length (list_set (seed_keywords ++ expanded))
                     <= length (seed_keywords ++ expanded))%nat).
      { apply NoDup_incl_length; [exact Hnd|]. intros kw Hkw. apply Hin. exact Hkw. }
      rewrite length_app in Hle. lia.
Qed.
End Parsers.

Lemma extract_reads_bullet_list_witness :
  Keywords.extract_seed_keywords_from_text
    (fun _ => bullet_list ["whey protein"; "mass gainer"]) "site text" 10
  = ["whey protein"; "mass gainer"].
Proof.
  apply (extract_reads_bullet_list
           (fun _ => bullet_list ["whey protein"; "mass gainer"])
           "site text" 10 ["whey protein"; "mass gainer"]).
  - reflexivity.
  - repeat constructor; simpl; intuition discriminate.
  - repeat constructor; discriminate.
  - simpl. lia.
Defined.

Lemma nodup_is_list_set (l : list string) :
  NoDup (nodup string_dec l) /\ forall kw, In kw (nodup string_dec l) <-> In kw l.
Proof. split; [apply NoDup_nodup|intros kw; apply nodup_In]. Qed.

Lemma expand_keeps_seeds_witness :
  incl ["whey protein"]
       (Keywords.expand_keywords_gemini_flash
          (fun _ => bullet_list ["whey protein"; "whey isolate"])
          (nodup string_dec) ["whey protein"] 5).
Proof.
  apply (expand_keeps_seeds
           (fun _ => bullet_list ["whey protein"; "whey isolate"])
           (nodup string_dec) ["whey protein"] 5 nodup_is_list_set).
Defined.

End KeywordsFacts.

(** * Properties of the pipeline of [main] *)
Module PipelineFacts.
Import Keywords Pipeline KeywordsFacts.

Local Open Scope string_scope.
Local Open Scope Z_scope.
Local Open Scope list_scope.

Lemma dummy_seed_keywords_clean :
  NoDup dummy_seed_keywords /\ Forall clean dummy_seed_keywords.
Proof.
  split.
  - unfold dummy_seed_keywords.
    repeat constructor; simpl; intuition discriminate.
  - unfold dummy_seed_keywords, clean.
    repeat constructor; discriminate.
Qed.

Section Main.
Variable scrape_website_text : string -> string.
Variable generate_with_gemini : string -> string.
Variable list_set : list string -> list string.
Variable TrendReq : result (Z -> Z -> list string -> string -> Trends.Response).

Local Abbreviation seed_keywords :=
  (seed_keywords scrape_website_text generate_with_gemini).
Local Abbreviation expanded_keywords :=
  (expanded_keywords scrape_website_text generate_with_gemini list_set).
Local Abbreviation fetch := (fetch TrendReq).
Local Abbreviation main :=
  (main scrape_website_text generate_with_gemini list_set TrendReq).

Lemma seed_keywords_clean (brand_url competitor_url : string) :
  seed_keywords brand_url competitor_url <> [] /\
  NoDup (seed_keywords brand_url competitor_url) /\
  Forall clean (seed_keywords brand_url competitor_url).
Proof.
  unfold Pipeline.seed_keywords.
  set (text := combined_text scrape_website_text brand_url competitor_url).
  assert (Hextract :
    NoDup (extract_seed_keywords_from_text generate_with_gemini text 10) /\
    Forall clean (extract_seed_keywords_from_text generate_with_gemini text 10)).
  { unfold extract_seed_keywords_from_text.
    destruct (negb (truthy (generate_with_gemini (extract_prompt text)))).
    - split; constructor.
    - apply extract_loop_clean; [apply splitlines_lines|constructor|constructor]. }
  destruct (extract_seed_keywords_from_text generate_with_gemini text 10)
    as [|kw kws].
  - split; [discriminate|]. exact dummy_seed_keywords_clean.
  - split; [discriminate|]. exact Hextract.
Qed.

(** The keyword list of [main], given what [list(set(...))] does. *)
Lemma pipeline_keywords_aux :
  (forall l, NoDup (list_set l) /\ forall kw, In kw (list_set l) <-> In kw l) ->
  forall brand_url competitor_url,
  expanded_keywords brand_url competitor_url <> [] /\
  NoDup (expanded_keywords brand_url competitor_url) /\
  Forall clean (expanded_keywords brand_url competitor_url).
Proof.
  intros Hset brand_url competitor_url.
  destruct (seed_keywords_clean brand_url competitor_url)
    as (Hne & Hnd & Hclean).
  unfold Pipeline.expanded_keywords, expand_keywords_gemini_flash.
  set (seeds := seed_keywords brand_url competitor_url) in *.
  destruct (negb (truthy (generate_with_gemini (expand_prompt seeds)))).
  - split; [exact Hne|]. split; assumption.
  - set (limit := 5 * Z.of_nat (length seeds)).
    set (lines := splitlines (generate_with_gemini (expand_prompt seeds))).
    destruct (expand_loop_invariant limit seeds lines [] (splitlines_lines _)
                (Forall_nil _) (or_intror eq_refl)) as [Hexp _].
    destruct (Hset (seeds ++ expand_loop limit seeds lines [])) as [Hnd' Hin].
    split; [|split].
    + destruct seeds as [|kw seeds']; [contradiction|].
      intros Hnil. assert (Hkw : In kw (list_set ((kw :: seeds')
                                ++ expand_loop limit (kw :: seeds') lines []))).
      { apply Hin. left. reflexivity. }
      rewrite Hnil in Hkw. destruct Hkw.
    + exact Hnd'.
    + apply Forall_forall. intros kw Hkw. apply Hin in Hkw.
      rewrite Forall_forall in Hclean, Hexp.
      apply in_app_or in Hkw as [Hkw|Hkw]; [exact (Hclean kw Hkw)|exact (Hexp kw Hkw)].
Qed.

(** X22.  Provided [list(set(...))] returns the elements of its argument
    once each, the keyword list that [main] hands to the fetch is never
    empty, has no duplicate and holds only clean keywords, whatever the
    two sites and the model return. *)
Theorem pipeline_keywords (brand_url competitor_url : string) :
  (forall l, NoDup (list_set l) /\ forall kw, In kw (list_set l) <-> In kw l) ->
  expanded_keywords brand_url competitor_url <> [] /\
  NoDup (expanded_keywords brand_url competitor_url) /\
  Forall clean (expanded_keywords brand_url competitor_url).
Proof.
  intros Hset.
  destruct (pipeline_keywords_aux Hset brand_url competitor_url)
    as (Hne & Hnd & Hclean).
  split; [exact Hne|]. split; [exact Hnd|exact Hclean].
Qed.

Lemma main_configured (config : Config) :
  configured config ->
  main config =
  let keywords := expanded_keywords (get (brand_website config) "")
                                    (get (competitor_website config) "") in
  match fetch config keywords with
  | (Raise e, tr) => (Crashed e, tr)
  | (Ok trends_data, tr) =>
      (Saved (Merger.final_frame keywords trends_data
                (get (min_trends_score config) 0%Q)), tr)
  end.
Proof.
  intros (Hkey & Hbrand & Hcomp). unfold Pipeline.main.
  rewrite Hkey, Hbrand, Hcomp. reflexivity.
Qed.

(** X23.  With the key and both URLs set, a batch size of at least 1 and
    a non-negative backoff, [main] dies of an exception only when the
    fetch cannot build its client (line 114), before any request; once
    the client is built [main] saves a final frame, whatever the sites,
    the model and the client return and whatever [retries] and [delay]
    are. *)
Theorem main_saves_unless_construction_fails (config : Config) :
  configured config ->
  1 <= get (batch_size config) 5 ->
  0 <= get (backoff config) 5 ->
  match TrendReq with
  | Ok _ => exists final_df tr, main config = (Saved final_df, tr)
  | Raise e => main config = (Crashed e, [])
  end.
Proof.
  intros Hconf Hs Hb. rewrite (main_configured config Hconf). cbv zeta.
  set (keywords := expanded_keywords _ _).
  unfold Pipeline.fetch, Trends.fetch_google_trends_call.
  destruct TrendReq as [pytrends|e]; [|reflexivity].
  destruct (TrendsExtra.fetch_body_returns pytrends (get (geo config) "IN")
              (get (retries config) 3) (get (backoff config) 5)
              (get (delay config) 15) keywords (get (batch_size config) 5) Hs Hb)
    as (records & tr & Hrun).
  rewrite Hrun. eexists. eexists. reflexivity.
Qed.

(** X24.  With the key and both URLs set, a batch size of at least 1 and
    non-negative sleeps, and provided [list(set(...))] returns the elements
    of its argument once each: the final frame that [main] saves has one
    row per keyword at most, all its keywords are keywords handed to the
    fetch, and it is empty only when the fetch returned records and every
    one of them scored below [min_trends_score]. *)
Theorem main_output (config : Config) (final_df : Merger.DataFrame)
    (tr : list Trends.Event) :
  (forall l, NoDup (list_set l) /\ forall kw, In kw (list_set l) <-> In kw l) ->
  configured config ->
  1 <= get (batch_size config) 5 ->
  0 <= get (delay config) 15 ->
  0 <= get (backoff config) 5 ->
  main config = (Saved final_df, tr) ->
  let keywords := expanded_keywords (get (brand_website config) "")
                                    (get (competitor_website config) "") in
  NoDup (map Merger.keyword final_df) /\
  incl (map Merger.keyword final_df) keywords /\
  (final_df = [] ->
   exists trends_data,
     fetch config keywords = (Ok trends_data, tr) /\
     trends_data <> [] /\
     forall r, In r trends_data ->
               Qle_bool (get (min_trends_score config) 0%Q)
                        (Trends.trends_score r) = false).
Proof.
  intros Hset Hconf Hs Hd Hb Hmain. cbv zeta.
  rewrite (main_configured config Hconf) in Hmain. cbv zeta in Hmain.
  destruct (pipeline_keywords_aux Hset (get (brand_website config) "")
              (get (competitor_website config) "")) as (Hne & Hnd & _).
  set (keywords := expanded_keywords _ _) in *.
  set (min_score := get (min_trends_score config) 0%Q) in *.
  destruct (fetch config keywords) as [[trends_data|e] tr'] eqn:Hfetch;
    [|discriminate].
  injection Hmain as <- <-.
  unfold Pipeline.fetch, Trends.fetch_google_trends_call in Hfetch.
  destruct TrendReq as [pytrends|e]; [|discriminate].
  pose proof (TrendsExtra.fetch_records_order pytrends _ _ _ _ keywords _
                trends_data tr' Hs Hd Hb Hfetch) as Hsub.
  assert (Hkeys : NoDup (map Merger.keyword
                           (Merger.trends_frame keywords trends_data min_score)) /\
                  incl (map Merger.keyword
                          (Merger.trends_frame keywords trends_data min_score))
                       keywords).
  { unfold Merger.trends_frame. destruct trends_data as [|r rs].
    - unfold Merger.frame_of_keywords. rewrite map_map. cbn [Merger.keyword].
      rewrite map_id. split; [exact Hnd|apply incl_refl].
    - unfold Merger.frame_of_trends. rewrite MergerFacts.filter_map_swap, map_map.
      cbn [Merger.keyword]. split.
      + apply MergerFacts.kept_keywords_distinct.
        exact (TrendsExtra.subsequence_NoDup _ _ Hsub Hnd).
      + intros kw Hkw. apply in_map_iff in Hkw as (r' & <- & Hr').
        apply filter_In in Hr' as [Hr' _].
        apply (TrendsExtra.subsequence_In _ _ _ Hsub).
        apply in_map. exact Hr'. }
  destruct Hkeys as [Hkeys Hincl].
  rewrite (MergerFacts.final_frame_of_trends_frame keywords trends_data min_score Hkeys).
  rewrite map_map. cbn [Merger.with_cost Merger.keyword].
  split; [exact Hkeys|]. split; [exact Hincl|].
  intros Hnil. apply map_eq_nil in Hnil.
  exists trends_data. split; [reflexivity|].
  unfold Merger.trends_frame in Hnil. destruct trends_data as [|r rs].
  - unfold Merger.frame_of_keywords in Hnil. apply map_eq_nil in Hnil.
    contradiction.
  - split; [discriminate|]. intros r' Hr'.
    destruct (Qle_bool min_score (Trends.trends_score r')) eqn:Hge; [|reflexivity].
    exfalso.
    assert (Hin : In {| Merger.keyword := Trends.keyword r';
                        Merger.trends_score := Some (Trends.trends_score r');
                        Merger.cpc_usd := None |}
                    (filter (Merger.score_ge min_score)
                            (Merger.frame_of_trends (r :: rs)))).
    { apply filter_In. split.
      - unfold Merger.frame_of_trends.
        apply (in_map (fun r => {| Merger.keyword := Trends.keyword r;
                                   Merger.trends_score := Some (Trends.trends_score r);
                                   Merger.cpc_usd := None |})).
        exact Hr'.
      - exact Hge. }
    rewrite Hnil in Hin. destruct Hin.
Qed.
End Main.

Lemma pipeline_keywords_witness :
  Pipeline.expanded_keywords Sample.scrape Sample.generate (nodup string_dec)
    "https://brand.example" "https://rival.example" <> [].
Proof.
  apply (pipeline_keywords Sample.scrape Sample.generate (nodup string_dec)
           "https://brand.example" "https://rival.example" nodup_is_list_set).
Defined.

Lemma main_saves_unless_construction_fails_witness :
  exists final_df tr,
    Pipeline.main Sample.scrape Sample.generate (nodup string_dec)
      (Ok Scenario.reliable) Sample.config = (Saved final_df, tr).
Proof.
  apply (main_saves_unless_construction_fails Sample.scrape Sample.generate
           (nodup string_dec) (Ok Scenario.reliable) Sample.config).
  - repeat split; reflexivity.
  - simpl. lia.
  - simpl. lia.
Defined.

Lemma main_output_witness :
  match fst (Pipeline.main Sample.scrape Sample.generate (nodup string_dec)
               (Ok Scenario.reliable) Sample.config) with
  | Saved final_df => NoDup (map Merger.keyword final_df)
  | _ => False
  end.
Proof.
  assert (Hconf : configured Sample.config) by (repeat split; reflexivity).
  assert (Hs : 1 <= get (batch_size Sample.config) 5) by (simpl; lia).
  assert (Hd : 0 <= get (delay Sample.config) 15) by (simpl; lia).
  assert (Hb : 0 <= get (backoff Sample.config) 5) by (simpl; lia).
  destruct (Pipeline.main Sample.scrape Sample.generate (nodup string_dec)
              (Ok Scenario.reliable) Sample.config) as [[|e|final_df] tr] eqn:Hmain;
    cbn [fst]; try (vm_compute in Hmain; discriminate).
  pose proof (main_output Sample.scrape Sample.generate (nodup string_dec)
                (Ok Scenario.reliable) Sample.config final_df tr nodup_is_list_set
                Hconf Hs Hd Hb Hmain) as H.
  cbv zeta in H. destruct H as [Hnd _]. exact Hnd.
Defined.

End PipelineFacts.
